(** * Monte Carlo simulator: a shallow embedding of [monte_carlo_simulator.py]

    The development follows the classes of the program in their order:
    [Variable], [Modelo], [Simulador], [Resultados] and the three handlers of
    [AplicacionMonteCarlo] that compute something ([_ejecutar_simulacion],
    [_actualizar_evaluador], [_actualizar_estimador]).

    Conventions of the embedding.
    - A Python [str] is a [string]; formulas are read as ASCII text.
    - A Python [dict] is an association list in insertion order with
      first-match lookup; [dict_set] is item assignment.
    - A call that may raise returns a [resultado]: [Ok v] or [Raise e], an
      exception being its class name and its [str(e)] text.
    - A finite float is the rational it denotes; no rounding is modelled. *)

From Stdlib Require Import String Ascii List Bool Arith ZArith QArith Lia DecimalString.
From Stdlib Require Import Qround Qabs Qreals Qminmax Reals Lra.
From Stdlib Require Import Sorting.Sorted Sorting.Permutation.
From Stdlib Require Lqa.
Import ListNotations.

Local Open Scope string_scope.
Local Open Scope list_scope.

(* ================================================================== *)
(** ** Host-language objects *)

Module Py.

(** An exception object: its class and the text of [str(e)]. *)
Record excepcion : Type := mk_excepcion { tipo : string; mensaje : string }.

Inductive resultado (A : Type) : Type :=
| Ok (a : A)
| Raise (e : excepcion).
Arguments Ok {A} a.
Arguments Raise {A} e.

Definition bind {A B} (r : resultado A) (k : A -> resultado B) : resultado B :=
  match r with
  | Ok a => k a
  | Raise e => Raise e
  end.

Definition ValueError (msg : string) : excepcion := mk_excepcion "ValueError" msg.
Definition NameError (nombre : string) : excepcion :=
  mk_excepcion "NameError" ("name '" ++ nombre ++ "' is not defined").
Definition KeyError (clave : string) : excepcion :=
  mk_excepcion "KeyError" ("'" ++ clave ++ "'").
Definition TypeError (msg : string) : excepcion := mk_excepcion "TypeError" msg.
Definition IndexError (msg : string) : excepcion := mk_excepcion "IndexError" msg.
Definition ZeroDivisionError (msg : string) : excepcion :=
  mk_excepcion "ZeroDivisionError" msg.

(** The objects a formula can compute with or reach. *)
Inductive valor : Type :=
| VInt (z : Z)               (* a Python int *)
| VFloat (q : Q)             (* a finite Python float *)
| VNp (q : Q)                (* a finite numpy scalar, as the samplers return *)
| VFunc (modulo nombre : string)  (* the function [nombre] of [modulo] *)
| VModulo (nombre : string)  (* a module object *)
| VDictVacio.                (* the empty dict [{}] *)

(** ** Dictionaries *)

Definition dict (V : Type) : Type := list (string * V).

Fixpoint dict_get {V} (k : string) (d : dict V) : option V :=
  match d with
  | [] => None
  | (k', v) :: r => if String.eqb k k' then Some v else dict_get k r
  end.

(** [d[k] = v] *)
Fixpoint dict_set {V} (k : string) (v : V) (d : dict V) : dict V :=
  match d with
  | [] => [(k, v)]
  | (k', v') :: r =>
      if String.eqb k k' then (k, v) :: r else (k', v') :: dict_set k v r
  end.

(** [{**d, **extra}]: the items of [extra] are assigned in their order. *)
Definition dict_update {V} (d extra : dict V) : dict V :=
  fold_left (fun acc kv => dict_set (fst kv) (snd kv) acc) extra d.

Definition keys {V} (d : dict V) : list string := map fst d.

(** [k in d] *)
Definition dict_in {V} (k : string) (d : dict V) : bool :=
  match dict_get k d with Some _ => true | None => false end.

(** [x in lista] for strings. *)
Definition en_lista (x : string) (l : list string) : bool :=
  existsb (String.eqb x) l.

(** [sub in s] *)
Definition contiene (sub s : string) : bool :=
  match String.index 0 sub s with Some _ => true | None => false end.

End Py.
Import Py.

Notation "x <- r ;; k" := (bind r (fun x => k))
  (at level 61, r at next level, right associativity).

(* ================================================================== *)
(** ** [re.findall(r'\b[a-zA-Z_]\w*\b', s)] *)

Module Re.

Definition es_digito (c : ascii) : bool :=
  let n := nat_of_ascii c in (48 <=? n)%nat && (n <=? 57)%nat.

(** [[a-zA-Z_]] *)
Definition es_inicial (c : ascii) : bool :=
  let n := nat_of_ascii c in
  ((65 <=? n)%nat && (n <=? 90)%nat) || ((97 <=? n)%nat && (n <=? 122)%nat)
  || (n =? 95)%nat.

(** [\w] on ASCII text. *)
Definition es_palabra (c : ascii) : bool := es_inicial c || es_digito c.

Definition cerrar (actual : string) : list string :=
  match actual with
  | EmptyString => []
  | _ => [actual]
  end.

(** The maximal runs of [\w] characters of [s], left to right; [actual] is
    the run being read. *)
Fixpoint palabras (actual s : string) : list string :=
  match s with
  | EmptyString => cerrar actual
  | String c r =>
      if es_palabra c then palabras (actual ++ String c EmptyString) r
      else cerrar actual ++ palabras EmptyString r
  end.

Definition empieza_identificador (w : string) : bool :=
  match w with
  | EmptyString => false
  | String c _ => es_inicial c
  end.

(** A match of the pattern starts at a word boundary with a letter or an
    underscore and, [\w*] being greedy and followed by [\b], takes the whole
    run; a run that starts with a digit holds no boundary inside and gives
    no match. *)
Definition findall_identificadores (s : string) : list string :=
  filter empieza_identificador (palabras EmptyString s).

End Re.

(* ================================================================== *)
(** ** class Variable *)

Record Variable_ : Type := mk_Variable {
  nombre : string;
  distribucion : string;
  parametros : dict Q
}.

Definition distribuciones_validas : list string :=
  ["normal"; "uniforme"; "triangular"; "lognormal"; "binomial"; "poisson"].

Definition error_distribucion (d : string) : excepcion :=
  ValueError ("Distribución '" ++ d ++ "' no soportada. Use: "
    ++ "['normal', 'uniforme', 'triangular', 'lognormal', 'binomial', 'poisson']").

(** [Variable._validar_parametros] *)
Definition _validar_parametros (v : Variable_) : resultado unit :=
  if negb (en_lista (distribucion v) distribuciones_validas)
  then Raise (error_distribucion (distribucion v))
  else Ok tt.

(** [Variable.__init__] *)
Definition Variable_init (nombre distribucion : string) (parametros : dict Q)
  : resultado Variable_ :=
  let self := mk_Variable nombre distribucion parametros in
  _ <- _validar_parametros self ;;
  Ok self.

(** [self.parametros[clave]] *)
Definition parametro (v : Variable_) (clave : string) : resultado Q :=
  match dict_get clave (parametros v) with
  | Some q => Ok q
  | None => Raise (KeyError clave)
  end.

(** A call of [np.random.<familia>] with its distribution arguments, the
    size left out. *)
Record llamada_np : Type := mk_llamada { familia : string; args : list Q }.

Section Muestreo.

(** The random source.  [np_rechaza c] is the error numpy raises for the
    arguments of the call [c], if it raises one; [np_draw c k] is the value
    the generator gives for [c] when it is at its [k]-th draw. *)
Variable np_rechaza : llamada_np -> option excepcion.
Variable np_draw : llamada_np -> nat -> Q.

(** The call [c] with size [n] and the generator at draw [s]: an array of
    [n] values. *)
Definition np_random (c : llamada_np) (n : Z) (s : nat)
  : resultado (list valor) :=
  match np_rechaza c with
  | Some e => Raise e
  | None =>
      if (n <? 0)%Z then Raise (ValueError "negative dimensions are not allowed")
      else Ok (map (fun k => VNp (np_draw c (s + k))) (seq 0 (Z.to_nat n)))
  end.

(** [Variable.generar_muestra]; [None] is the value of a call that falls out
    of the last [elif]. *)
Definition generar_muestra (self : Variable_) (n : Z) (s : nat)
  : resultado (option (list valor)) :=
  let d := distribucion self in
  if String.eqb d "normal" then
    mu <- parametro self "media" ;;
    sigma <- parametro self "desviacion" ;;
    a <- np_random (mk_llamada "normal" [mu; sigma]) n s ;; Ok (Some a)
  else if String.eqb d "uniforme" then
    minimo <- parametro self "minimo" ;;
    maximo <- parametro self "maximo" ;;
    a <- np_random (mk_llamada "uniform" [minimo; maximo]) n s ;; Ok (Some a)
  else if String.eqb d "triangular" then
    minimo <- parametro self "minimo" ;;
    moda <- parametro self "moda" ;;
    maximo <- parametro self "maximo" ;;
    a <- np_random (mk_llamada "triangular" [minimo; moda; maximo]) n s ;;
    Ok (Some a)
  else if String.eqb d "lognormal" then
    mu <- parametro self "media_log" ;;
    sigma <- parametro self "desviacion_log" ;;
    a <- np_random (mk_llamada "lognormal" [mu; sigma]) n s ;; Ok (Some a)
  else if String.eqb d "binomial" then
    n_trials <- parametro self "n" ;;
    p <- parametro self "p" ;;
    a <- np_random (mk_llamada "binomial" [n_trials; p]) n s ;; Ok (Some a)
  else if String.eqb d "poisson" then
    lam <- parametro self "lambda" ;;
    a <- np_random (mk_llamada "poisson" [lam]) n s ;; Ok (Some a)
  else Ok None.

End Muestreo.

(* ================================================================== *)
(** ** class Modelo *)

Record Modelo : Type := mk_Modelo {
  formula : string;
  variables : dict Variable_
}.

Definition funciones_permitidas : list string :=
  ["sqrt"; "exp"; "log"; "sin"; "cos"; "tan"; "abs"; "min"; "max"; "pow"].

Definition error_no_definida (nombre : string) : excepcion :=
  ValueError ("Variable '" ++ nombre ++ "' en la fórmula no está definida").

(** The [for] loop of [_validar_formula]. *)
Fixpoint verificar_nombres (nombres : list string) (variables : dict Variable_)
  : resultado unit :=
  match nombres with
  | [] => Ok tt
  | nombre :: resto =>
      if negb (dict_in nombre variables) then Raise (error_no_definida nombre)
      else verificar_nombres resto variables
  end.

(** [Modelo._validar_formula] *)
Definition _validar_formula (self : Modelo) : resultado unit :=
  let nombres_en_formula := Re.findall_identificadores (formula self) in
  let nombres_en_formula :=
    filter (fun n => negb (en_lista n funciones_permitidas)) nombres_en_formula in
  verificar_nombres nombres_en_formula (variables self).

(** [Modelo.__init__] *)
Definition Modelo_init (formula : string) (variables : dict Variable_)
  : resultado Modelo :=
  let self := mk_Modelo formula variables in
  _ <- _validar_formula self ;;
  Ok self.

(** The locals of the evaluation before the values are merged in. *)
Definition funciones_namespace : dict valor :=
  [ ("sqrt", VFunc "numpy" "sqrt"); ("exp", VFunc "numpy" "exp");
    ("log", VFunc "numpy" "log"); ("sin", VFunc "numpy" "sin");
    ("cos", VFunc "numpy" "cos"); ("tan", VFunc "numpy" "tan");
    ("abs", VFunc "builtins" "abs"); ("min", VFunc "builtins" "min");
    ("max", VFunc "builtins" "max"); ("pow", VFunc "builtins" "pow") ].

(** [{"__builtins__": {}}] *)
Definition globals_vacios : dict valor := [("__builtins__", VDictVacio)].

(** The dict display of [evaluar]: the ten functions, then
    [**valores_variables]. *)
Definition namespace (valores_variables : dict valor) : dict valor :=
  dict_update funciones_namespace valores_variables.

Definition error_evaluacion (e : excepcion) : excepcion :=
  ValueError ("Error al evaluar la fórmula: " ++ mensaje e).

(** The interface of the host evaluator: [eval(source, globals, locals)]. *)
Definition evaluador : Type :=
  string -> dict valor -> dict valor -> resultado valor.

Record Resultados : Type := mk_Resultados { datos : list valor }.

Section Motor.

Variable eval_ : evaluador.
Variable np_rechaza : llamada_np -> option excepcion.
Variable np_draw : llamada_np -> nat -> Q.

(** [Modelo.evaluar] *)
Definition evaluar (self : Modelo) (valores_variables : dict valor)
  : resultado valor :=
  match eval_ (formula self) globals_vacios (namespace valores_variables) with
  | Ok v => Ok v
  | Raise e => Raise (error_evaluacion e)
  end.

(** *** class Simulador *)

Definition muestras_t : Type := dict (option (list valor)).

(** The first loop of [ejecutar]: one array per variable, in the order of
    [variables.items()]; the generator advances by the draws it gave. *)
Fixpoint muestrear (items : dict Variable_) (n : Z) (s : nat)
    (muestras_variables : muestras_t) : resultado muestras_t :=
  match items with
  | [] => Ok muestras_variables
  | (nombre, variable) :: resto =>
      a <- generar_muestra np_rechaza np_draw variable n s ;;
      muestrear resto n (s + Z.to_nat n) (dict_set nombre a muestras_variables)
  end.

Definition texto_nat (n : nat) : string :=
  NilEmpty.string_of_uint (Nat.to_uint n).

(** [muestras_variables[nombre][i]] *)
Definition elemento (muestras_variables : muestras_t) (nombre : string)
    (i : nat) : resultado valor :=
  match dict_get nombre muestras_variables with
  | None => Raise (KeyError nombre)
  | Some None => Raise (TypeError "'NoneType' object is not subscriptable")
  | Some (Some a) =>
      match nth_error a i with
      | Some x => Ok x
      | None =>
          Raise (IndexError ("index " ++ texto_nat i
            ++ " is out of bounds for axis 0 with size "
            ++ texto_nat (length a)))
      end
  end.

(** The dict comprehension of the second loop. *)
Fixpoint valores_actuales (nombres : list string)
    (muestras_variables : muestras_t) (i : nat) (acc : dict valor)
  : resultado (dict valor) :=
  match nombres with
  | [] => Ok acc
  | nombre :: resto =>
      x <- elemento muestras_variables nombre i ;;
      valores_actuales resto muestras_variables i (dict_set nombre x acc)
  end.

(** The second loop of [ejecutar] over the indices left of [range(n)]. *)
Fixpoint simular (self : Modelo) (muestras_variables : muestras_t)
    (indices : list nat) (resultados_simulaciones : list valor)
  : resultado (list valor) :=
  match indices with
  | [] => Ok resultados_simulaciones
  | i :: resto =>
      valores <- valores_actuales (keys (variables self)) muestras_variables i [] ;;
      resultado_i <- evaluar self valores ;;
      simular self muestras_variables resto
        (resultados_simulaciones ++ [resultado_i])
  end.

(** [range(n)] *)
Definition range (n : Z) : list nat := seq 0 (Z.to_nat n).

(** [Simulador(modelo, n_simulaciones).ejecutar()] with the generator at
    draw [s]. *)
Definition ejecutar (modelo : Modelo) (n_simulaciones : Z) (s : nat)
  : resultado Resultados :=
  muestras_variables <- muestrear (variables modelo) n_simulaciones s [] ;;
  resultados_simulaciones <-
    simular modelo muestras_variables (range n_simulaciones) [] ;;
  Ok (mk_Resultados resultados_simulaciones).

End Motor.

(* ================================================================== *)
(** ** The numpy reductions [Resultados.estadisticas] calls

    Arrays of finite floats are lists of rationals.  The functions follow
    numpy's definitions for a one-dimensional non-empty array and their
    default arguments; on an empty array numpy answers [nan] or raises,
    which rationals do not represent. *)

Module Np.

Definition sum (a : list Q) : Q := fold_right Qplus 0 a.

Definition size (a : list Q) : Z := Z.of_nat (length a).

(** [np.mean(a)] *)
Definition mean (a : list Q) : Q := sum a / inject_Z (size a).

(** [np.var(a, ddof)]: the squared deviations from the mean, summed and
    divided by [max(N - ddof, 0)]. *)
Definition var (a : list Q) (ddof : Z) : Q :=
  let arrmean := mean a in
  sum (map (fun x => (x - arrmean) * (x - arrmean)) a)
  / inject_Z (Z.max (size a - ddof) 0).

(** [np.std(a, ddof)] *)
Definition std (a : list Q) (ddof : Z) : R := sqrt (Q2R (var a ddof)).

(** [np.min(a)], [np.max(a)] *)
Definition min (a : list Q) : Q :=
  match a with
  | [] => 0
  | x :: r => fold_left Qmin r x
  end.

Definition max (a : list Q) : Q :=
  match a with
  | [] => 0
  | x :: r => fold_left Qmax r x
  end.

Fixpoint insertar (x : Q) (l : list Q) : list Q :=
  match l with
  | [] => [x]
  | y :: r => if Qle_bool x y then x :: y :: r else y :: insertar x r
  end.

(** [np.sort(a)] *)
Definition sort (a : list Q) : list Q := fold_right insertar [] a.

(** [np.median(a)]: the mean of the middle element of the sorted array, or
    of its two middle elements when the size is even. *)
Definition median (a : list Q) : Q :=
  let n := length a in
  let index := (n / 2)%nat in
  if Nat.odd n then mean (firstn 1 (skipn index (sort a)))
  else mean (firstn 2 (skipn (index - 1) (sort a))).

Definition clip (i : Z) (n : nat) : nat :=
  Z.to_nat (Z.min (Z.max i 0) (Z.of_nat n - 1)).

(** [np.percentile(a, q)] with the default method, [linear]: the virtual
    index [(N - 1) * q / 100] falls between two neighbours of the sorted
    array, and the result is interpolated between them. *)
Definition percentile (a : list Q) (q : Q) : Q :=
  let arr := sort a in
  let n := length a in
  let virtual_index := inject_Z (size a - 1) * (q / 100) in
  let previous := Qfloor virtual_index in
  let gamma := virtual_index - inject_Z previous in
  let lo := nth (clip previous n) arr 0 in
  let hi := nth (clip (previous + 1) n) arr 0 in
  lo + (hi - lo) * gamma.

End Np.

(** *** class Resultados: [estadisticas] over a numeric array *)

Definition estadisticas (datos : list Q) : dict R :=
  [ ("media", Q2R (Np.mean datos));
    ("mediana", Q2R (Np.median datos));
    ("desviacion", Np.std datos 0);
    ("minimo", Q2R (Np.min datos));
    ("maximo", Q2R (Np.max datos));
    ("percentil_2_5", Q2R (Np.percentile datos 2.5));
    ("percentil_25", Q2R (Np.percentile datos 25));
    ("percentil_75", Q2R (Np.percentile datos 75));
    ("percentil_97_5", Q2R (Np.percentile datos 97.5)) ].

(* ================================================================== *)
(** ** [scipy.stats.percentileofscore] *)

Module Stats.

Inductive kind : Type := rank | weak | strict | mean.

Definition Qlt_bool (x y : Q) : bool := negb (Qle_bool y x).

(** [np.count_nonzero] of a comparison of the array with the score. *)
Definition count (p : Q -> bool) (a : list Q) : Z :=
  Z.of_nat (length (filter p a)).

(** [percentileofscore(a, score, kind)]; [None] stands for the [nan] of an
    empty array. *)
Definition percentileofscore (a : list Q) (score : Q) (k : kind) : option Q :=
  match a with
  | [] => None
  | _ =>
      let n := inject_Z (Z.of_nat (length a)) in
      let left := count (fun x => Qlt_bool x score) a in
      let right := count (fun x => Qle_bool x score) a in
      let plus1 := if (left <? right)%Z then 1%Z else 0%Z in
      Some (match k with
            | rank => inject_Z (left + right + plus1) * (50 / n)
            | weak => inject_Z right * (100 / n)
            | strict => inject_Z left * (100 / n)
            | mean => inject_Z (left + right) * (50 / n)
            end)
  end.

(** The default of the [kind] argument. *)
Definition kind_por_defecto : kind := rank.

End Stats.

(* ================================================================== *)
(** ** Text read from the entry widgets *)

Module Texto.

(** [str.isspace] on ASCII text. *)
Definition es_espacio (c : ascii) : bool :=
  let n := nat_of_ascii c in
  ((9 <=? n)%nat && (n <=? 13)%nat) || ((28 <=? n)%nat && (n <=? 32)%nat).

(** The white space [int] skips around an ASCII literal. *)
Definition es_espacio_c (c : ascii) : bool :=
  let n := nat_of_ascii c in
  ((9 <=? n)%nat && (n <=? 13)%nat) || (n =? 32)%nat.

Fixpoint lstrip (espacio : ascii -> bool) (s : string) : string :=
  match s with
  | EmptyString => EmptyString
  | String c r => if espacio c then lstrip espacio r else s
  end.

Fixpoint invertir (s acc : string) : string :=
  match s with
  | EmptyString => acc
  | String c r => invertir r (String c acc)
  end.

Definition quitar_extremos (espacio : ascii -> bool) (s : string) : string :=
  invertir (lstrip espacio (invertir (lstrip espacio s) EmptyString))
           EmptyString.

(** [s.strip()] *)
Definition strip (s : string) : string := quitar_extremos es_espacio s.

(** The digits of a decimal literal, single underscores allowed between
    two digits. *)
Fixpoint digitos (s : string) (acc : Z) (previo_digito : bool) : option Z :=
  match s with
  | EmptyString => if previo_digito then Some acc else None
  | String c r =>
      if Re.es_digito c
      then digitos r (10 * acc + Z.of_nat (nat_of_ascii c - 48)) true
      else if Ascii.eqb c "_"
           then (if previo_digito then digitos r acc false else None)
           else None
  end.

(** [int(texto)] *)
Definition int (texto : string) : resultado Z :=
  let t := quitar_extremos es_espacio_c texto in
  let '(signo, cuerpo) :=
    match t with
    | String "-" r => ((-1)%Z, r)
    | String "+" r => (1%Z, r)
    | _ => (1%Z, t)
    end in
  match digitos cuerpo 0 false with
  | Some z => Ok (signo * z)%Z
  | None =>
      Raise (ValueError ("invalid literal for int() with base 10: '"
                           ++ texto ++ "'"))
  end.

(** What [float(entry.get().strip())] makes of an entry: nothing to read,
    a [ValueError], or a finite float. *)
Inductive entrada : Type :=
| Vacia
| NoNumerica
| Numero (q : Q).

End Texto.
Import Texto.

(* ================================================================== *)
(** ** class AplicacionMonteCarlo: the handlers that compute *)

(** What a handler leaves on the screen. *)
Inductive salida_simulacion : Type :=
| DialogoError (msg : string)                    (* [messagebox.showerror] *)
| Completada (resultados : Resultados) (n_sim : Z).

Inductive etiqueta_meta : Type :=
| MetaSinCambio
| MetaTexto (texto color : string)
| MetaNan
| MetaResultado (percentil probabilidad : Q) (color : string).

Inductive etiqueta_estimador : Type :=
| EstSinCambio
| EstTexto (texto color : string)
| EstNan (valor_y : valor)
| EstResultado (valor_y : valor) (percentil : Q) (color : string).

Definition nueva_linea : string := String (ascii_of_nat 10) EmptyString.

(** The number a value compares as inside a numeric array. *)
Definition como_numero (v : valor) : option Q :=
  match v with
  | VInt z => Some (inject_Z z)
  | VFloat q => Some q
  | VNp q => Some q
  | _ => None
  end.

Section Aplicacion.

Variable eval_ : evaluador.
Variable np_rechaza : llamada_np -> option excepcion.
Variable np_draw : llamada_np -> nat -> Q.

(** The error of [percentileofscore] for a score that is not a number. *)
Variable error_no_numerico : valor -> excepcion.

(** [_ejecutar_simulacion]: [self.variables], the text of the formula box,
    the text of the trial-count entry, the generator state.  The drawing of
    the chart and of the statistics text after a completed run is left
    out. *)
Definition _ejecutar_simulacion (variables : dict Variable_)
    (formula_texto n_sim_texto : string) (s : nat) : salida_simulacion :=
  match variables with
  | [] => DialogoError "Debe agregar al menos una variable"
  | _ =>
      let formula := strip formula_texto in
      if String.eqb formula EmptyString
      then DialogoError "Debe ingresar una fórmula"
      else
        match (n_sim <- int n_sim_texto ;;
               if (n_sim <=? 0)%Z
               then Raise (ValueError "El número debe ser positivo")
               else Ok n_sim) with
        | Raise _ => DialogoError "Número de simulaciones inválido"
        | Ok n_sim =>
            match (modelo <- Modelo_init formula variables ;;
                   ejecutar eval_ np_rechaza np_draw modelo n_sim s) with
            | Ok resultados => Completada resultados n_sim
            | Raise e =>
                DialogoError ("Error en la simulación:" ++ nueva_linea
                                ++ mensaje e)
            end
        end
  end.

Definition color_meta (probabilidad : Q) : string :=
  if Qle_bool 50 probabilidad then "green"
  else if Qle_bool 25 probabilidad then "orange"
  else "red".

(** [_actualizar_evaluador]: [self.resultados.datos] if there are results,
    and the entry.  The label text prints the two numbers with two
    decimals; the numbers themselves are kept here. *)
Definition _actualizar_evaluador (resultados : option (list Q))
    (meta_entry : entrada) : etiqueta_meta :=
  match resultados with
  | None => MetaSinCambio
  | Some datos =>
      match meta_entry with
      | Vacia => MetaTexto "" "gray"
      | NoNumerica => MetaTexto "→ Ingrese un número válido" "gray"
      | Numero valor_y =>
          match Stats.percentileofscore datos valor_y Stats.kind_por_defecto with
          | None => MetaNan
          | Some percentil =>
              let probabilidad := 100 - percentil in
              MetaResultado percentil probabilidad (color_meta probabilidad)
          end
      end
  end.

(** The dict display of [_actualizar_estimador]: the ten functions, then
    [nombre_var: valor_x]. *)
Definition namespace_estimador (nombre_var : string) (valor_x : Q)
  : dict valor :=
  dict_set nombre_var (VFloat valor_x) funciones_namespace.

(** [_actualizar_estimador]: the results, the entry, the text of the formula
    box and [self.variables]. *)
Definition _actualizar_estimador (resultados : option (list Q))
    (x_entry : entrada) (formula_texto : string) (variables : dict Variable_)
  : etiqueta_estimador :=
  match resultados with
  | None => EstSinCambio
  | Some datos =>
      match x_entry with
      | Vacia => EstTexto "" "gray"
      | NoNumerica => EstTexto "→ Ingrese un número válido" "gray"
      | Numero valor_x =>
          let formula := strip formula_texto in
          match keys variables with
          | [] => EstTexto "→ No hay variables definidas" "gray"
          | nombre_var :: _ =>
              let r :=
                valor_y <- eval_ formula globals_vacios
                             (namespace_estimador nombre_var valor_x) ;;
                match como_numero valor_y with
                | None => Raise (error_no_numerico valor_y)
                | Some y =>
                    Ok (valor_y,
                        Stats.percentileofscore datos y Stats.kind_por_defecto)
                end in
              match r with
              | Ok (valor_y, Some percentil) =>
                  EstResultado valor_y percentil "green"
              | Ok (valor_y, None) => EstNan valor_y
              | Raise e =>
                  if String.eqb (tipo e) "ValueError"
                  then EstTexto "→ Ingrese un número válido" "gray"
                  else EstTexto ("→ Error: " ++ mensaje e) "red"
              end
          end
      end
  end.

End Aplicacion.

(* ================================================================== *)
(** ** The host evaluator on a fragment of the expression language

    [Modelo.evaluar] and [_actualizar_estimador] hand the formula to the
    host's [eval].  [PyEval.eval] follows CPython 3.11 on the expressions
    built from decimal literals, names, [+ - * / **], unary signs,
    parentheses, calls and attribute references; [None] marks text,
    operands or attributes the fragment leaves out. *)

Module PyEval.

Inductive simbolo : Type :=
| Mas | Menos | Por | Entre | Potencia | ParIzq | ParDer | Coma | Punto.

Inductive token : Type :=
| TInt (z : Z)
| TFloat (q : Q)
| TNombre (n : string)
| TSim (s : simbolo).

Definition palabras_clave : list string :=
  [ "False"; "None"; "True"; "and"; "as"; "assert"; "async"; "await";
    "break"; "class"; "continue"; "def"; "del"; "elif"; "else"; "except";
    "finally"; "for"; "from"; "global"; "if"; "import"; "in"; "is";
    "lambda"; "nonlocal"; "not"; "or"; "pass"; "raise"; "return"; "try";
    "while"; "with"; "yield" ].

Definition valor_digito (c : ascii) : Z := Z.of_nat (nat_of_ascii c - 48).

(** The value of a run of decimal digits and [10 ^ its length]. *)
Fixpoint decimales (s : string) (acc : Z) (escala : positive)
  : option (Z * positive) :=
  match s with
  | EmptyString => Some (acc, escala)
  | String c r =>
      if Re.es_digito c
      then decimales r (10 * acc + valor_digito c) (10 * escala)
      else None
  end.

(** Splits a literal at its decimal point. *)
Fixpoint partir_punto (s acc : string) : string * option string :=
  match s with
  | EmptyString => (acc, None)
  | String c r =>
      if Ascii.eqb c "." then (acc, Some r)
      else partir_punto r (acc ++ String c EmptyString)
  end.

Definition solo_digitos (s : string) : bool :=
  match s, decimales s 0 1 with
  | String _ _, Some _ => true
  | _, _ => false
  end.

(** An integer literal has no leading zero unless it is a run of zeros. *)
Definition cero_inicial (s : string) : bool :=
  match s with
  | String "0" (String _ _) => true
  | _ => false
  end.

(** The token of a finished run: an identifier that is no keyword, or a
    literal of the shape [d+] or [d+.d+]. *)
Definition clasificar (w : string) : option token :=
  if Re.empieza_identificador w then
    if en_lista w palabras_clave then None else Some (TNombre w)
  else
    match partir_punto w EmptyString with
    | (i, None) =>
        if solo_digitos i && negb (cero_inicial i) then
          option_map (fun zd => TInt (fst zd)) (decimales i 0 1)
        else None
    | (i, Some f) =>
        if solo_digitos i && solo_digitos f then
          match decimales i 0 1, decimales f 0 1 with
          | Some (z, _), Some (m, d) =>
              Some (TFloat (Qred (inject_Z z + (m # d))))
          | _, _ => None
          end
        else None
    end.

Definition cerrar_token (actual : string) : option (list token) :=
  match actual with
  | EmptyString => Some []
  | _ => option_map (fun t => [t]) (clasificar actual)
  end.

Definition simbolo_simple (c : ascii) : option simbolo :=
  if Ascii.eqb c "+" then Some Mas
  else if Ascii.eqb c "-" then Some Menos
  else if Ascii.eqb c "*" then Some Por
  else if Ascii.eqb c "/" then Some Entre
  else if Ascii.eqb c "(" then Some ParIzq
  else if Ascii.eqb c ")" then Some ParDer
  else if Ascii.eqb c "," then Some Coma
  else if Ascii.eqb c "." then Some Punto
  else None.

Definition es_blanco (c : ascii) : bool :=
  Ascii.eqb c " " || Ascii.eqb c (ascii_of_nat 9).

Definition unir (pre : option (list token)) (t : list token)
    (post : option (list token)) : option (list token) :=
  match pre, post with
  | Some a, Some b => Some (a ++ t ++ b)
  | _, _ => None
  end.

(** The tokens of [s]; [actual] is the run of word characters (and, inside
    a literal, its decimal point) being read. *)
Fixpoint tokens (actual s : string) : option (list token) :=
  match s with
  | EmptyString => cerrar_token actual
  | String c r =>
      if Re.es_palabra c then tokens (actual ++ String c EmptyString) r
      else if Ascii.eqb c "." && solo_digitos actual
      then tokens (actual ++ String c EmptyString) r
      else if es_blanco c
      then unir (cerrar_token actual) [] (tokens EmptyString r)
      else if Ascii.eqb c "*" then
        match r with
        | String c2 r' =>
            if Ascii.eqb c2 "*"
            then unir (cerrar_token actual) [TSim Potencia] (tokens EmptyString r')
            else unir (cerrar_token actual) [TSim Por] (tokens EmptyString r)
        | EmptyString => unir (cerrar_token actual) [TSim Por] (Some [])
        end
      else
        match simbolo_simple c with
        | Some sim => unir (cerrar_token actual) [TSim sim] (tokens EmptyString r)
        | None => None
        end
  end.

(** *** Syntax *)

Set Warnings "-register-all".

Inductive operador : Type := Add | Sub | Mul | Div | Pow.

Inductive expr : Type :=
| EInt (z : Z)
| EFloat (q : Q)
| ENombre (n : string)
| EBin (op : operador) (a b : expr)
| ENeg (a : expr)
| EPos (a : expr)
| ELlamada (f : expr) (argumentos : list expr)
| EAtributo (e : expr) (atributo : string).

Definition analisis : Type := option (expr * list token).

(** Recursive descent along the grammar
    [sum: term (('+'|'-') term)*], [term: factor (('*'|'/') factor)*],
    [factor: ('+'|'-') factor | power], [power: primary ['**' factor]],
    [primary: atom ('.' NAME | '(' [sum (',' sum)*] ')')*],
    [atom: NAME | NUMBER | '(' sum ')']; [fuel] bounds the depth. *)
Fixpoint p_sum (fuel : nat) (ts : list token) : analisis :=
  match fuel with
  | O => None
  | S fuel =>
      match p_term fuel ts with
      | Some (a, r) => p_sum_resto fuel a r
      | None => None
      end
  end
with p_sum_resto (fuel : nat) (a : expr) (ts : list token) : analisis :=
  match fuel with
  | O => None
  | S fuel =>
      match ts with
      | TSim Mas :: r =>
          match p_term fuel r with
          | Some (b, r') => p_sum_resto fuel (EBin Add a b) r'
          | None => None
          end
      | TSim Menos :: r =>
          match p_term fuel r with
          | Some (b, r') => p_sum_resto fuel (EBin Sub a b) r'
          | None => None
          end
      | _ => Some (a, ts)
      end
  end
with p_term (fuel : nat) (ts : list token) : analisis :=
  match fuel with
  | O => None
  | S fuel =>
      match p_factor fuel ts with
      | Some (a, r) => p_term_resto fuel a r
      | None => None
      end
  end
with p_term_resto (fuel : nat) (a : expr) (ts : list token) : analisis :=
  match fuel with
  | O => None
  | S fuel =>
      match ts with
      | TSim Por :: r =>
          match p_factor fuel r with
          | Some (b, r') => p_term_resto fuel (EBin Mul a b) r'
          | None => None
          end
      | TSim Entre :: r =>
          match p_factor fuel r with
          | Some (b, r') => p_term_resto fuel (EBin Div a b) r'
          | None => None
          end
      | _ => Some (a, ts)
      end
  end
with p_factor (fuel : nat) (ts : list token) : analisis :=
  match fuel with
  | O => None
  | S fuel =>
      match ts with
      | TSim Mas :: r =>
          match p_factor fuel r with
          | Some (a, r') => Some (EPos a, r')
          | None => None
          end
      | TSim Menos :: r =>
          match p_factor fuel r with
          | Some (a, r') => Some (ENeg a, r')
          | None => None
          end
      | _ =>
          match p_primary fuel ts with
          | Some (a, TSim Potencia :: r) =>
              match p_factor fuel r with
              | Some (b, r') => Some (EBin Pow a b, r')
              | None => None
              end
          | otro => otro
          end
      end
  end
with p_primary (fuel : nat) (ts : list token) : analisis :=
  match fuel with
  | O => None
  | S fuel =>
      match ts with
      | TInt z :: r => p_trailers fuel (EInt z) r
      | TFloat q :: r => p_trailers fuel (EFloat q) r
      | TNombre n :: r => p_trailers fuel (ENombre n) r
      | TSim ParIzq :: r =>
          match p_sum fuel r with
          | Some (a, TSim ParDer :: r') => p_trailers fuel a r'
          | _ => None
          end
      | _ => None
      end
  end
with p_trailers (fuel : nat) (a : expr) (ts : list token) : analisis :=
  match fuel with
  | O => None
  | S fuel =>
      match ts with
      | TSim Punto :: TNombre n :: r => p_trailers fuel (EAtributo a n) r
      | TSim Punto :: _ => None
      | TSim ParIzq :: TSim ParDer :: r => p_trailers fuel (ELlamada a []) r
      | TSim ParIzq :: r =>
          match p_args fuel r with
          | Some (l, r') => p_trailers fuel (ELlamada a l) r'
          | None => None
          end
      | _ => Some (a, ts)
      end
  end
with p_args (fuel : nat) (ts : list token) : option (list expr * list token) :=
  match fuel with
  | O => None
  | S fuel =>
      match p_sum fuel ts with
      | Some (a, TSim Coma :: r) =>
          match p_args fuel r with
          | Some (l, r') => Some (a :: l, r')
          | None => None
          end
      | Some (a, TSim ParDer :: r) => Some ([a], r)
      | _ => None
      end
  end.

(** The expression a source text denotes, when the fragment has it. *)
Definition parse (s : string) : option expr :=
  match tokens EmptyString s with
  | Some ts =>
      match p_sum (8 * (length ts + 1)) ts with
      | Some (e, []) => Some e
      | _ => None
      end
  | None => None
  end.

(** *** Evaluation *)

Definition omision (A : Type) : Type := option (resultado A).

Definition ok {A} (a : A) : omision A := Some (Ok a).
Definition lanza {A} (e : excepcion) : omision A := Some (Raise e).

Definition luego {A B} (r : omision A) (k : A -> omision B) : omision B :=
  match r with
  | Some (Ok a) => k a
  | Some (Raise e) => Some (Raise e)
  | None => None
  end.

Definition es_np (v : valor) : bool :=
  match v with VNp _ => true | _ => false end.

(** A binary operator on two objects.  Two ints keep to the integers but
    for [/]; a numpy scalar makes the result one, and its division by zero
    is the [inf] or [nan] of a warning, not an error; powers are those of
    a non-negative int exponent. *)
Definition op_bin (op : operador) (a b : valor) : omision valor :=
  match a, b with
  | VInt x, VInt y =>
      match op with
      | Add => ok (VInt (x + y))
      | Sub => ok (VInt (x - y))
      | Mul => ok (VInt (x * y))
      | Div =>
          if (y =? 0)%Z then lanza (ZeroDivisionError "division by zero")
          else ok (VFloat (Qred (inject_Z x / inject_Z y)))
      | Pow => if (y <? 0)%Z then None else ok (VInt (x ^ y))
      end
  | _, _ =>
      match como_numero a, como_numero b with
      | Some x, Some y =>
          let np := es_np a || es_np b in
          let envolver q := if np then VNp (Qred q) else VFloat (Qred q) in
          match op with
          | Add => ok (envolver (x + y))
          | Sub => ok (envolver (x - y))
          | Mul => ok (envolver (x * y))
          | Div =>
              if Qeq_bool y 0
              then (if np then None
                    else lanza (ZeroDivisionError "float division by zero"))
              else ok (envolver (x / y))
          | Pow =>
              match b with
              | VInt n => if (n <? 0)%Z then None else ok (envolver (x ^ n))
              | _ => None
              end
          end
      | _, _ => None
      end
  end.

Definition negativo (a : valor) : omision valor :=
  match a with
  | VInt x => ok (VInt (- x))
  | VFloat q => ok (VFloat (Qred (- q)))
  | VNp q => ok (VNp (Qred (- q)))
  | _ => None
  end.

Definition positivo (a : valor) : omision valor :=
  match a with
  | VInt _ | VFloat _ | VNp _ => ok a
  | _ => None
  end.

Definition absoluto (a : valor) : omision valor :=
  match a with
  | VInt x => ok (VInt (Z.abs x))
  | VFloat q => ok (VFloat (Qred (Qabs q)))
  | VNp q => ok (VNp (Qred (Qabs q)))
  | _ => None
  end.

(** [max] and [min] of two or more numbers keep the first of the largest,
    of the smallest. *)
Fixpoint extremo (mayor : bool) (mejor : valor) (q : Q) (resto : list valor)
  : omision valor :=
  match resto with
  | [] => ok mejor
  | v :: r =>
      match como_numero v with
      | None => None
      | Some x =>
          if (if mayor then Stats.Qlt_bool q x else Stats.Qlt_bool x q)
          then extremo mayor v x r
          else extremo mayor mejor q r
      end
  end.

Definition extremo_de (mayor : bool) (argumentos : list valor)
  : omision valor :=
  match argumentos with
  | a :: (_ :: _) as r =>
      match como_numero a with
      | Some q => extremo mayor a q r
      | None => None
      end
  | _ => None
  end.

(** The call of an object with the evaluated arguments. *)
Definition llamar (f : valor) (argumentos : list valor) : omision valor :=
  match f with
  | VInt _ => lanza (TypeError "'int' object is not callable")
  | VFloat _ => lanza (TypeError "'float' object is not callable")
  | VFunc modulo nombre =>
      if negb (String.eqb modulo "builtins") then None
      else if String.eqb nombre "abs" then
        match argumentos with
        | [a] => absoluto a
        | _ => None
        end
      else if String.eqb nombre "max" then extremo_de true argumentos
      else if String.eqb nombre "min" then extremo_de false argumentos
      else if String.eqb nombre "pow" then
        match argumentos with
        | [a; b] => op_bin Pow a b
        | _ => None
        end
      else None
  | _ => None
  end.

(** [objeto.atributo]: the module a built-in function belongs to. *)
Definition atributo_de (objeto : valor) (atributo : string) : omision valor :=
  match objeto with
  | VFunc modulo _ =>
      if String.eqb modulo "builtins" && String.eqb atributo "__self__"
      then ok (VModulo "builtins")
      else None
  | _ => None
  end.

(** A name is looked up in the locals, then the globals, then the
    built-ins, which the globals give as [{}]. *)
Definition buscar_nombre (n : string) (globals locals : dict valor)
  : omision valor :=
  match dict_get n locals with
  | Some v => ok v
  | None =>
      match dict_get n globals with
      | Some v => ok v
      | None =>
          match dict_get "__builtins__" globals with
          | Some VDictVacio => lanza (NameError n)
          | _ => None
          end
      end
  end.

Fixpoint eval_expr (e : expr) (globals locals : dict valor) : omision valor :=
  match e with
  | EInt z => ok (VInt z)
  | EFloat q => ok (VFloat q)
  | ENombre n => buscar_nombre n globals locals
  | EBin op a b =>
      luego (eval_expr a globals locals) (fun x =>
      luego (eval_expr b globals locals) (fun y => op_bin op x y))
  | ENeg a => luego (eval_expr a globals locals) negativo
  | EPos a => luego (eval_expr a globals locals) positivo
  | ELlamada f argumentos =>
      luego (eval_expr f globals locals) (fun fv =>
      luego ((fix evaluar_todos (l : list expr) : omision (list valor) :=
                match l with
                | [] => ok []
                | a :: r =>
                    luego (eval_expr a globals locals) (fun x =>
                    luego (evaluar_todos r) (fun xs => ok (x :: xs)))
                end) argumentos)
            (fun vs => llamar fv vs))
  | EAtributo a n =>
      luego (eval_expr a globals locals) (fun x => atributo_de x n)
  end.

(** What the fragment says of [eval(source, globals, locals)]. *)
Definition eval_fragmento (source : string) (globals locals : dict valor)
  : omision valor :=
  match parse source with
  | Some e => eval_expr e globals locals
  | None => None
  end.

Definition fuera_del_fragmento : excepcion :=
  mk_excepcion "NotImplementedError" "outside the modelled fragment".

(** The evaluator the examples run: the fragment, and a marker error where
    the fragment says nothing. *)
Definition eval : evaluador :=
  fun source globals locals =>
    match eval_fragmento source globals locals with
    | Some r => r
    | None => Raise fuera_del_fragmento
    end.

End PyEval.

(** A generator for the examples: numpy accepts every call, and each draw
    of a call is its first argument (as a normal of deviation 0 draws its
    mean). *)
Definition np_acepta : llamada_np -> option excepcion := fun _ => None.

Definition np_primero : llamada_np -> nat -> Q :=
  fun c _ => hd 0 (args c).

(** For the examples of the estimator: the error of a score that is not a
    number, which none of them reaches. *)
Definition error_de_ejemplo : valor -> excepcion :=
  fun _ => TypeError "score is not a number".


(* ================================================================== *)
(** ** The statements of the specification, in its words *)

Module Spec.

(** The identifiers of a formula that are left once the whitelist is
    removed. *)
Definition identificadores_restantes (formula : string) : list string :=
  filter (fun n => negb (en_lista n funciones_permitidas))
         (Re.findall_identificadores formula).

(** The first identifier that is no key of the variables. *)
Definition primera_no_declarada (formula : string)
    (variables : dict Variable_) : option string :=
  find (fun n => negb (dict_in n variables)) (identificadores_restantes formula).

(** A values mapping supplies the declared names. *)
Definition suministra (valores : dict valor) (variables : dict Variable_)
  : Prop :=
  forall k, In k (keys variables) -> dict_in k valores = true.

(** A result that comes from the values and the whitelisted functions
    only: a number, or one of the objects of the namespace. *)
Definition dentro_del_namespace (valores : dict valor) (v : valor) : Prop :=
  (exists q, como_numero v = Some q)
  \/ (exists k, dict_get k (namespace valores) = Some v).

(** Sandboxed evaluation with the evaluator [ev]. *)
Definition aislada (ev : evaluador) : Prop :=
  forall formula variables valores m v,
    Modelo_init formula variables = Ok m ->
    suministra valores variables ->
    evaluar ev m valores = Ok v ->
    dentro_del_namespace valores v.

(** The percent-rank with ties counted as half:
    [100 * (count(outcomes < target) + 0.5 * count(outcomes == target)) / N]. *)
Definition percent_rank (outcomes : list Q) (target : Q) : Q :=
  100 * (inject_Z (Stats.count (fun x => Stats.Qlt_bool x target) outcomes)
         + (1 # 2) * inject_Z (Stats.count (fun x => Qeq_bool x target) outcomes))
  / inject_Z (Z.of_nat (length outcomes)).

(** The per-trial value set [{name: sample_matrix[name][i]}]. *)
Definition paso_de_prueba (sample_matrix : dict (option (list valor)))
    (i : nat) (acc : dict valor) (name : string) : dict valor :=
  match dict_get name sample_matrix with
  | Some (Some a) => dict_set name (nth i a VDictVacio) acc
  | _ => acc
  end.

Definition conjunto_de_prueba (nombres : list string)
    (sample_matrix : dict (option (list valor))) (i : nat) : dict valor :=
  fold_left (paso_de_prueba sample_matrix i) nombres [].

(** A sample sequence of length [n]. *)
Definition arreglo_de (n : Z) (a : option (list valor)) : Prop :=
  exists l, a = Some l /\ length l = Z.to_nat n.

(** Population variance: the squared deviations divided by N. *)
Definition varianza_poblacional (outcomes : list Q) : Q :=
  let m := Np.sum outcomes / inject_Z (Z.of_nat (length outcomes)) in
  Np.sum (map (fun x => (x - m) * (x - m)) outcomes)
  / inject_Z (Z.of_nat (length outcomes)).

(** Linear interpolation at the position [h] between the order statistics
    [s]. *)
Definition interpolacion (s : list Q) (h : Q) : Q :=
  let k := Z.to_nat (Qfloor h) in
  nth k s 0 + (h - inject_Z (Qfloor h)) * (nth (S k) s 0 - nth k s 0).

(** The percentile [p] of the outcomes: interpolation at [(N - 1) * p / 100]. *)
Definition percentil (outcomes sorted : list Q) (p : Q) : Q :=
  interpolacion sorted (inject_Z (Z.of_nat (length outcomes) - 1) * p / 100).

(** The middle order statistic, or the mean of the two middle ones. *)
Definition mediana (sorted : list Q) : Q :=
  let n := length sorted in
  if Nat.odd n then nth (n / 2) sorted 0
  else (nth (n / 2 - 1) sorted 0 + nth (n / 2) sorted 0) / 2.

End Spec.

(** The names an expression of the fragment refers to, and whether it
    holds an attribute reference. *)
Fixpoint menciona (k : string) (e : PyEval.expr) : bool :=
  match e with
  | PyEval.EInt _ | PyEval.EFloat _ => false
  | PyEval.ENombre n => String.eqb k n
  | PyEval.EBin _ a b => menciona k a || menciona k b
  | PyEval.ENeg a | PyEval.EPos a => menciona k a
  | PyEval.ELlamada f l => menciona k f || existsb (menciona k) l
  | PyEval.EAtributo a _ => menciona k a
  end.

Fixpoint con_atributo (e : PyEval.expr) : bool :=
  match e with
  | PyEval.EInt _ | PyEval.EFloat _ | PyEval.ENombre _ => false
  | PyEval.EBin _ a b => con_atributo a || con_atributo b
  | PyEval.ENeg a | PyEval.EPos a => con_atributo a
  | PyEval.ELlamada f l => con_atributo f || existsb con_atributo l
  | PyEval.EAtributo _ _ => true
  end.

(* ================================================================== *)
(** ** class AplicacionMonteCarlo: the registry of variables

    The handlers of the left panel work on [self.variables] and on the rows
    of the list box [self.lista_variables]; the other widgets they touch
    (the name and distribution fields they clear, the message boxes) hold
    no data another handler reads, but for the entries of the parameters. *)

Module App.

(** [_actualizar_parametros]: the keys of [self.params_entries] it creates
    for the selected distribution, in their order. *)
Definition _actualizar_parametros (dist : string) : list string :=
  if String.eqb dist "normal" then ["media"; "desviacion"]
  else if String.eqb dist "uniforme" then ["minimo"; "maximo"]
  else if String.eqb dist "triangular" then ["minimo"; "moda"; "maximo"]
  else if String.eqb dist "lognormal" then ["media_log"; "desviacion_log"]
  else if String.eqb dist "binomial" then ["n"; "p"]
  else if String.eqb dist "poisson" then ["lambda"]
  else [].

(** What [entry.get().strip()] and [float(valor)] make of a parameter
    entry: no text, the [ValueError] of [float] with its message, or a
    finite float. *)
Inductive campo : Type :=
| CampoVacio
| CampoInvalido (msg : string)
| CampoNumero (q : Q).

Inductive lectura : Type :=
| Falta (key : string)
| Invalido (msg : string)
| Leidos (parametros : dict Q).

(** The loop of [_agregar_variable] over [self.params_entries.items()]. *)
Fixpoint leer_parametros (items : dict campo) (parametros : dict Q) : lectura :=
  match items with
  | [] => Leidos parametros
  | (key, entry) :: resto =>
      match entry with
      | CampoVacio => Falta key
      | CampoInvalido msg => Invalido msg
      | CampoNumero q => leer_parametros resto (dict_set key q parametros)
      end
  end.

Record estado : Type := mk_estado {
  variables : dict Variable_;
  lista_variables : list string
}.

Inductive dialogo : Type :=
| ShowError (msg : string)
| ShowWarning (msg : string)
| ShowInfo (msg : string).

(** The text of a row of the list box. *)
Definition fila (nombre dist : string) : string :=
  nombre ++ " (" ++ dist ++ ")".

(** [_agregar_variable]: the name field, the distribution field and the
    entries of the parameters. *)
Definition _agregar_variable (self : estado) (nombre_var dist : string)
    (params_entries : dict campo) : estado * dialogo :=
  let nombre := strip nombre_var in
  if String.eqb nombre EmptyString
  then (self, ShowError "Debe ingresar un nombre para la variable")
  else if dict_in nombre (variables self)
  then (self, ShowError ("La variable '" ++ nombre ++ "' ya existe"))
  else if String.eqb dist EmptyString
  then (self, ShowError "Debe seleccionar una distribución")
  else
    match leer_parametros params_entries [] with
    | Falta key =>
        (self, ShowError ("Debe ingresar el parámetro '" ++ key ++ "'"))
    | Invalido msg => (self, ShowError ("Error en los parámetros: " ++ msg))
    | Leidos parametros =>
        match Variable_init nombre dist parametros with
        | Raise e =>
            (self, ShowError ("Error en los parámetros: " ++ mensaje e))
        | Ok variable =>
            (mk_estado (dict_set nombre variable (variables self))
                       (lista_variables self ++ [fila nombre dist]),
             ShowInfo ("Variable '" ++ nombre ++ "' agregada correctamente"))
        end
    end.

Fixpoint empieza_con (sep s : string) : bool :=
  match sep, s with
  | EmptyString, _ => true
  | String _ _, EmptyString => false
  | String a sep', String b s' => Ascii.eqb a b && empieza_con sep' s'
  end.

(** [s.split(sep)[0]] for a separator that is not empty: the text before
    the first occurrence of [sep], or all of [s]. *)
Fixpoint antes_de (sep s : string) : string :=
  match s with
  | EmptyString => EmptyString
  | String c r =>
      if empieza_con sep s then EmptyString else String c (antes_de sep r)
  end.

(** [sep in s] *)
Fixpoint aparece (sep s : string) : bool :=
  match s with
  | EmptyString => empieza_con sep EmptyString
  | String _ r => empieza_con sep s || aparece sep r
  end.

(** [del d[k]] on a dictionary that has the key. *)
Fixpoint dict_del {V} (k : string) (d : dict V) : dict V :=
  match d with
  | [] => []
  | (k', v) :: r => if String.eqb k k' then r else (k', v) :: dict_del k r
  end.

(** [lista.delete(idx)] *)
Definition borrar {A} (idx : nat) (l : list A) : list A :=
  firstn idx l ++ skipn (S idx) l.

(** [_eliminar_variable]: [curselection] is the tuple of the selected
    rows. *)
Definition _eliminar_variable (self : estado) (curselection : list nat)
  : resultado (estado * dialogo) :=
  match curselection with
  | [] => Ok (self, ShowWarning "Seleccione una variable para eliminar")
  | idx :: _ =>
      let texto := nth idx (lista_variables self) EmptyString in
      let nombre := antes_de " (" texto in
      match dict_get nombre (variables self) with
      | None => Raise (KeyError nombre)
      | Some _ =>
          Ok (mk_estado (dict_del nombre (variables self))
                        (borrar idx (lista_variables self)),
              ShowInfo ("Variable '" ++ nombre ++ "' eliminada"))
      end
  end.

(** The rows of the list box are those of the variables, in their order,
    and no name is registered twice. *)
Definition coherente (self : estado) : Prop :=
  NoDup (keys (variables self))
  /\ lista_variables self
     = map (fun kv => fila (fst kv) (distribucion (snd kv))) (variables self).

End App.

(** Every character of a text satisfies [p]. *)
Fixpoint todos (p : ascii -> bool) (s : string) : bool :=
  match s with
  | EmptyString => true
  | String c r => p c && todos p r
  end.

(** The run the tokenizer reads and the run [re.findall] reads go together:
    they are the same while the first is an identifier, and the second is
    empty when the first is. *)
Definition acompasadas (actT actP : string) : Prop :=
  (Re.empieza_identificador actT = true -> actT = actP)
  /\ (actT = EmptyString -> actP = EmptyString).

(** The names of a parsed expression are names among the tokens read, and
    the tokens left are among those given. *)
Definition nombres_simples (f : list PyEval.token -> PyEval.analisis) : Prop :=
  forall ts e r,
    f ts = Some (e, r) ->
    (forall k, menciona k e = true -> In (PyEval.TNombre k) ts)
    /\ (forall t, In t r -> In t ts).

Definition nombres_resto
    (f : PyEval.expr -> list PyEval.token -> PyEval.analisis) : Prop :=
  forall a ts e r,
    f a ts = Some (e, r) ->
    (forall k, menciona k e = true ->
               menciona k a = true \/ In (PyEval.TNombre k) ts)
    /\ (forall t, In t r -> In t ts).

Definition nombres_args
    (f : list PyEval.token -> option (list PyEval.expr * list PyEval.token))
  : Prop :=
  forall ts l r,
    f ts = Some (l, r) ->
    (forall k, existsb (menciona k) l = true -> In (PyEval.TNombre k) ts)
    /\ (forall t, In t r -> In t ts).

(* ================================================================== *)
(** * Properties *)

(** ** Dictionaries and lists *)

Lemma dict_in_keys {V} (k : string) (d : dict V) :
  dict_in k d = true <-> In k (keys d).
Proof.
  unfold dict_in. induction d as [|[k' v] r IH]; simpl.
  - split; [discriminate | tauto].
  - destruct (String.eqb_spec k k') as [->|Hne].
    + split; auto.
    + rewrite IH. split; [auto | intros [H|H]; [congruence | exact H]].
Qed.

Lemma dict_get_set_eq {V} (k : string) (v : V) (d : dict V) :
  dict_get k (dict_set k v d) = Some v.
Proof.
  induction d as [|[k' v'] r IH]; simpl.
  - now rewrite String.eqb_refl.
  - destruct (String.eqb_spec k k') as [->|Hne]; simpl.
    + now rewrite String.eqb_refl.
    + destruct (String.eqb_spec k k'); [contradiction | exact IH].
Qed.

Lemma dict_get_set_neq {V} (k k0 : string) (v : V) (d : dict V) :
  k <> k0 -> dict_get k (dict_set k0 v d) = dict_get k d.
Proof.
  intros Hne. induction d as [|[k' v'] r IH]; simpl.
  - destruct (String.eqb_spec k k0); [contradiction | reflexivity].
  - destruct (String.eqb_spec k0 k') as [->|Hne']; simpl.
    + destruct (String.eqb_spec k k'); [contradiction | reflexivity].
    + destruct (String.eqb_spec k k'); [reflexivity | exact IH].
Qed.

Lemma dict_get_update_fuera {V} (k : string) (extra d : dict V) :
  ~ In k (keys extra) -> dict_get k (dict_update d extra) = dict_get k d.
Proof.
  unfold dict_update. revert d.
  induction extra as [|[k' v'] r IH]; intros d Hn; simpl in *.
  - reflexivity.
  - rewrite IH by tauto. apply dict_get_set_neq. intros ->. tauto.
Qed.

Lemma dict_get_update {V} (k : string) (v : V) (extra d : dict V) :
  NoDup (keys extra) -> dict_get k extra = Some v ->
  dict_get k (dict_update d extra) = Some v.
Proof.
  unfold dict_update. revert d.
  induction extra as [|[k' v'] r IH]; intros d Hnd Hget; simpl in *.
  - discriminate.
  - inversion Hnd as [|? ? Hnotin Hnd']; subst.
    destruct (String.eqb_spec k k') as [->|Hne].
    + injection Hget as ->.
      fold (dict_update (dict_set k' v d) r).
      rewrite dict_get_update_fuera by exact Hnotin.
      apply dict_get_set_eq.
    + now apply IH.
Qed.

Lemma en_lista_In (x : string) (l : list string) :
  en_lista x l = true <-> In x l.
Proof.
  unfold en_lista. rewrite existsb_exists. split.
  - intros [y [Hy Heq]]. apply String.eqb_eq in Heq. now subst.
  - intros H. exists x. split; [exact H | apply String.eqb_refl].
Qed.

(** ** Variable *)

Lemma Variable_init_ok (n d : string) (p : dict Q) :
  Variable_init n d p =
    if en_lista d distribuciones_validas then Ok (mk_Variable n d p)
    else Raise (error_distribucion d).
Proof.
  unfold Variable_init, _validar_parametros. cbn [distribucion].
  destruct (en_lista d distribuciones_validas); reflexivity.
Qed.

(** C2, at the failing input: a normal variable built without parameters
    is accepted by the constructor, and the missing parameter is met when
    sampling, as a [KeyError].  The constructor looks at the kind only: it
    accepts a variable exactly when its kind is one of the six, whatever
    the parameters. *)
Theorem parametro_ausente_se_detecta_al_muestrear :
  Variable_init "x" "normal" [] = Ok (mk_Variable "x" "normal" [])
  /\ (forall np_rechaza np_draw n s,
        generar_muestra np_rechaza np_draw (mk_Variable "x" "normal" []) n s
        = Raise (KeyError "media"))
  /\ (forall n d p,
        (exists v, Variable_init n d p = Ok v)
        <-> In d distribuciones_validas).
Proof.
  split; [reflexivity|]. split; [intros; reflexivity|].
  intros n d p. rewrite Variable_init_ok, <- en_lista_In.
  destruct (en_lista d distribuciones_validas).
  - split; [reflexivity | intros _; eexists; reflexivity].
  - split; [intros [v H]; discriminate | discriminate].
Qed.

(** ** Modelo: validation of the formula *)

Lemma verificar_nombres_find (nombres : list string) (variables : dict Variable_) :
  verificar_nombres nombres variables =
    match find (fun n => negb (dict_in n variables)) nombres with
    | None => Ok tt
    | Some n => Raise (error_no_definida n)
    end.
Proof.
  induction nombres as [|n r IH]; simpl; [reflexivity|].
  destruct (negb (dict_in n variables)); [reflexivity | exact IH].
Qed.

Lemma Modelo_init_find (formula : string) (variables : dict Variable_) :
  Modelo_init formula variables =
    match Spec.primera_no_declarada formula variables with
    | None => Ok (mk_Modelo formula variables)
    | Some n => Raise (error_no_definida n)
    end.
Proof.
  unfold Modelo_init, _validar_formula, Spec.primera_no_declarada,
    Spec.identificadores_restantes. simpl.
  rewrite verificar_nombres_find.
  now destruct (find _ _).
Qed.


(** ** Whitelisted names used as variable names *)

Lemma length_append (a b : string) :
  String.length (a ++ b) = (String.length a + String.length b)%nat.
Proof.
  induction a as [|c a IH]; simpl; [reflexivity | now rewrite IH].
Qed.

Lemma append_inv_tail (a b s : string) :
  (a ++ s)%string = (b ++ s)%string -> a = b.
Proof.
  revert b. induction a as [|c a IH]; intros [|c' b] H; simpl in H.
  - reflexivity.
  - apply (f_equal String.length) in H. simpl in H.
    rewrite length_append in H. lia.
  - apply (f_equal String.length) in H. simpl in H.
    rewrite length_append in H. lia.
  - injection H as -> H. f_equal. now apply IH.
Qed.

Lemma error_no_definida_inj (n n' : string) :
  error_no_definida n = error_no_definida n' -> n = n'.
Proof.
  unfold error_no_definida, ValueError. intros H.
  injection H as H. simpl in H.
  repeat (injection H as H).
  now apply append_inv_tail in H.
Qed.

Lemma primera_no_declarada_fuera (formula : string) (variables : dict Variable_)
    (n : string) :
  Spec.primera_no_declarada formula variables = Some n ->
  ~ In n funciones_permitidas.
Proof.
  unfold Spec.primera_no_declarada, Spec.identificadores_restantes.
  intros H. apply find_some in H. destruct H as [H _].
  apply filter_In in H. destruct H as [_ H].
  intros Hin. apply en_lista_In in Hin. rewrite Hin in H. discriminate.
Qed.

Lemma eval_nombre (n : string) (globals locals : dict valor) (v : valor) :
  PyEval.parse n = Some (PyEval.ENombre n) ->
  dict_get n locals = Some v ->
  PyEval.eval n globals locals = Ok v.
Proof.
  intros Hp Hl. unfold PyEval.eval, PyEval.eval_fragmento. rewrite Hp.
  simpl. unfold PyEval.buscar_nombre. now rewrite Hl.
Qed.

Lemma parse_funcion_permitida (n : string) :
  In n funciones_permitidas -> PyEval.parse n = Some (PyEval.ENombre n).
Proof.
  unfold funciones_permitidas. simpl.
  intros H. repeat (destruct H as [<-|H]; [vm_compute; reflexivity|]).
  contradiction.
Qed.

(** C10: when a variable bears the name [n] of a whitelisted function, the
    constructor of [Modelo] never reports [n] as undefined, the value the
    values mapping gives for [n] takes the place of the function in the
    namespace of the evaluation, and the formula [n] evaluates to that
    value. *)
Theorem funcion_permitida_como_variable (n : string) (valores : dict valor)
    (v : valor) :
  In n funciones_permitidas ->
  NoDup (keys valores) ->
  dict_get n valores = Some v ->
  (forall formula variables,
      Modelo_init formula variables <> Raise (error_no_definida n))
  /\ (exists f, dict_get n funciones_namespace = Some f)
  /\ dict_get n (namespace valores) = Some v
  /\ (forall variables,
        evaluar PyEval.eval (mk_Modelo n variables) valores = Ok v).
Proof.
  intros Hn Hd Hv.
  assert (Hns : dict_get n (namespace valores) = Some v)
    by (unfold namespace; now apply dict_get_update).
  split; [|split; [|split]].
  - intros formula variables H. rewrite Modelo_init_find in H.
    destruct (Spec.primera_no_declarada formula variables) as [n'|] eqn:E;
      [|discriminate].
    assert (n' = n) by (apply error_no_definida_inj; congruence).
    subst n'. now apply primera_no_declarada_fuera in E.
  - unfold funciones_permitidas in Hn. simpl in Hn.
    repeat (destruct Hn as [<-|Hn]; [eexists; reflexivity|]). contradiction.
  - exact Hns.
  - intros variables. unfold evaluar. cbn [formula].
    rewrite (eval_nombre n globals_vacios (namespace valores) v);
      [reflexivity | now apply parse_funcion_permitida | exact Hns].
Qed.

Lemma funcion_permitida_como_variable_witness :
  (forall formula variables,
      Modelo_init formula variables <> Raise (error_no_definida "max"))
  /\ (exists f, dict_get "max" funciones_namespace = Some f)
  /\ dict_get "max" (namespace [("x", VNp 5); ("max", VNp 2)]) = Some (VNp 2)
  /\ (forall variables,
        evaluar PyEval.eval (mk_Modelo "max" variables)
          [("x", VNp 5); ("max", VNp 2)] = Ok (VNp 2)).
Proof.
  apply (funcion_permitida_como_variable "max" [("x", VNp 5); ("max", VNp 2)]
           (VNp 2)).
  - simpl. do 8 right. left. reflexivity.
  - repeat constructor; simpl; intuition discriminate.
  - reflexivity.
Defined.

(** ** Evaluation of the formula *)

Lemma luego_ok {A B} (r : PyEval.omision A) (k : A -> PyEval.omision B) (b : B) :
  PyEval.luego r k = Some (Ok b) ->
  exists a, r = Some (Ok a) /\ k a = Some (Ok b).
Proof.
  destruct r as [[a|e]|]; simpl; intros H; try discriminate.
  exists a. split; [reflexivity | exact H].
Qed.

Lemma op_bin_numero (op : PyEval.operador) (a b v : valor) :
  PyEval.op_bin op a b = Some (Ok v) -> exists q, como_numero v = Some q.
Proof.
  unfold PyEval.op_bin, PyEval.ok, PyEval.lanza.
  destruct a, b, op; simpl;
    repeat match goal with
           | |- context [if ?c then _ else _] => destruct c
           end;
    intros H; try discriminate; injection H as <-; simpl; eauto.
Qed.

Lemma extremo_numero (mayor : bool) (resto : list valor) (mejor : valor)
    (q : Q) (v : valor) :
  como_numero mejor = Some q ->
  PyEval.extremo mayor mejor q resto = Some (Ok v) ->
  exists q', como_numero v = Some q'.
Proof.
  revert mejor q. induction resto as [|x r IH]; intros mejor q Hm; simpl.
  - intros H. injection H as <-. eauto.
  - destruct (como_numero x) as [qx|] eqn:Hx; [|discriminate].
    destruct (if mayor then _ else _); eauto.
Qed.

Lemma llamar_numero (f : valor) (l : list valor) (v : valor) :
  PyEval.llamar f l = Some (Ok v) -> exists q, como_numero v = Some q.
Proof.
  unfold PyEval.llamar, PyEval.extremo_de, PyEval.lanza.
  destruct f; try discriminate.
  destruct (negb _); [discriminate|].
  repeat match goal with
         | |- context [if String.eqb ?a ?b then _ else _] =>
             destruct (String.eqb a b)
         end; try discriminate.
  - destruct l as [|a [|b r]]; try discriminate.
    unfold PyEval.absoluto, PyEval.ok.
    destruct a; intros H; try discriminate; injection H as <-; simpl; eauto.
  - destruct l as [|a [|b r]]; try discriminate.
    destruct (como_numero a) eqn:Ha; [|discriminate].
    now apply extremo_numero.
  - destruct l as [|a [|b r]]; try discriminate.
    destruct (como_numero a) eqn:Ha; [|discriminate].
    now apply extremo_numero.
  - destruct l as [|a [|b [|c r]]]; try discriminate.
    apply op_bin_numero.
Qed.

Lemma evaluar_ok_fragmento (fuente : string) (declaradas : dict Variable_)
    (valores : dict valor) (v : valor) :
  evaluar PyEval.eval (mk_Modelo fuente declaradas) valores = Ok v ->
  PyEval.eval_fragmento fuente globals_vacios (namespace valores) = Some (Ok v).
Proof.
  unfold evaluar, PyEval.eval. cbn [formula].
  destruct (PyEval.eval_fragmento _ _ _) as [[a|e]|]; intros H;
    try discriminate.
  now injection H as <-.
Qed.







(** ** The simulation loop *)

Section Simulacion.

Variable ev : evaluador.
Variable np_rechaza : llamada_np -> option excepcion.
Variable np_draw : llamada_np -> nat -> Q.

Lemma np_random_longitud (c : llamada_np) (n : Z) (s : nat) (l : list valor) :
  np_random np_rechaza np_draw c n s = Ok l -> length l = Z.to_nat n.
Proof.
  unfold np_random. destruct (np_rechaza c); [discriminate|].
  destruct (n <? 0)%Z; [discriminate|].
  intros H. injection H as <-. now rewrite length_map, length_seq.
Qed.

Ltac resolver_muestra :=
  repeat match goal with
         | |- context [parametro ?v ?k] => destruct (parametro v k); simpl
         | |- Raise _ = Ok _ -> _ => discriminate
         end;
  match goal with
  | |- context [np_random ?r ?d ?c ?n ?s] =>
      let E := fresh "E" in
      destruct (np_random r d c n s) as [l|] eqn:E; simpl;
      [ intros H; injection H as <-; exists l; split;
        [reflexivity | exact (np_random_longitud _ _ _ _ E)]
      | discriminate ]
  end.

Lemma generar_muestra_arreglo (v : Variable_) (n : Z) (s : nat)
    (a : option (list valor)) :
  en_lista (distribucion v) distribuciones_validas = true ->
  generar_muestra np_rechaza np_draw v n s = Ok a ->
  Spec.arreglo_de n a.
Proof.
  unfold generar_muestra, en_lista, distribuciones_validas, Spec.arreglo_de.
  cbn [existsb].
  destruct (String.eqb (distribucion v) "normal"); [intros _; resolver_muestra|].
  destruct (String.eqb (distribucion v) "uniforme"); [intros _; resolver_muestra|].
  destruct (String.eqb (distribucion v) "triangular"); [intros _; resolver_muestra|].
  destruct (String.eqb (distribucion v) "lognormal"); [intros _; resolver_muestra|].
  destruct (String.eqb (distribucion v) "binomial"); [intros _; resolver_muestra|].
  destruct (String.eqb (distribucion v) "poisson"); [intros _; resolver_muestra|].
  discriminate.
Qed.

Lemma muestrear_arreglos (n : Z) (items : dict Variable_) :
  forall (s : nat) (acc ms : muestras_t),
    (forall k v, In (k, v) items ->
                 en_lista (distribucion v) distribuciones_validas = true) ->
    (forall k a, dict_get k acc = Some a -> Spec.arreglo_de n a) ->
    muestrear np_rechaza np_draw items n s acc = Ok ms ->
    (forall k a, dict_get k ms = Some a -> Spec.arreglo_de n a)
    /\ (forall k, In k (keys items) \/ dict_in k acc = true ->
                  dict_in k ms = true).
Proof.
  induction items as [|[k0 v0] r IH]; intros s acc ms Hval Hacc Hm; simpl in Hm.
  - injection Hm as <-. split; [exact Hacc|].
    intros k [[]|H]. exact H.
  - destruct (generar_muestra np_rechaza np_draw v0 n s) as [a0|] eqn:Hg;
      simpl in Hm; [|discriminate].
    assert (Ha0 : Spec.arreglo_de n a0).
    { apply (generar_muestra_arreglo v0 n s); [|exact Hg].
      apply (Hval k0). now left. }
    apply IH in Hm.
    + destruct Hm as [H1 H2]. split; [exact H1|].
      intros k [[<-|Hk]|Hk].
      * apply H2. right. unfold dict_in. now rewrite dict_get_set_eq.
      * apply H2. now left.
      * apply H2. right. unfold dict_in in *.
        destruct (String.eqb_spec k k0) as [->|Hne].
        -- now rewrite dict_get_set_eq.
        -- now rewrite dict_get_set_neq.
    + intros k v Hin. apply (Hval k). now right.
    + intros k a. destruct (String.eqb_spec k k0) as [->|Hne].
      * rewrite dict_get_set_eq. intros H. now injection H as <-.
      * rewrite dict_get_set_neq by exact Hne. apply Hacc.
Qed.

Lemma valores_actuales_prueba (ms : muestras_t) (i : nat) (nombres : list string) :
  forall acc,
    (forall k, In k nombres ->
       exists l, dict_get k ms = Some (Some l) /\ (i < length l)%nat) ->
    valores_actuales nombres ms i acc
    = Ok (fold_left (Spec.paso_de_prueba ms i) nombres acc).
Proof.
  induction nombres as [|k r IH]; intros acc H; simpl; [reflexivity|].
  destruct (H k (or_introl eq_refl)) as [l [Hl Hi]].
  unfold elemento, Spec.paso_de_prueba at 2. rewrite Hl.
  destruct (nth_error l i) as [x|] eqn:Hn.
  - simpl. rewrite (nth_error_nth _ _ _ Hn).
    apply IH. intros k' Hk'. apply H. now right.
  - apply nth_error_None in Hn. lia.
Qed.

Lemma simular_todo_o_nada (modelo : Modelo) (ms : muestras_t) (N : nat)
    (indices : list nat) :
  (forall k, In k (keys (variables modelo)) ->
     exists l, dict_get k ms = Some (Some l) /\ length l = N) ->
  (forall i, In i indices -> (i < N)%nat) ->
  forall acc,
    let prueba i := Spec.conjunto_de_prueba (keys (variables modelo)) ms i in
    (exists j e,
        (j < length indices)%nat
        /\ (forall j', (j' < j)%nat ->
              exists v, evaluar ev modelo (prueba (nth j' indices O)) = Ok v)
        /\ evaluar ev modelo (prueba (nth j indices O)) = Raise e
        /\ simular ev modelo ms indices acc = Raise e)
    \/ (exists nuevos,
          simular ev modelo ms indices acc = Ok (acc ++ nuevos)
          /\ length nuevos = length indices
          /\ forall j, (j < length indices)%nat ->
               evaluar ev modelo (prueba (nth j indices O))
               = Ok (nth j nuevos VDictVacio)).
Proof.
  intros Hms. induction indices as [|i r IH]; intros Hidx acc prueba.
  - right. exists []. simpl. rewrite app_nil_r.
    split; [reflexivity|]. split; [reflexivity|]. intros j Hj. lia.
  - assert (Hva : valores_actuales (keys (variables modelo)) ms i []
                  = Ok (prueba i)).
    { apply valores_actuales_prueba. intros k Hk.
      destruct (Hms k Hk) as [l [Hl Hlen]]. exists l. split; [exact Hl|].
      rewrite Hlen. apply Hidx. now left. }
    cbn [simular]. rewrite Hva. cbn [bind].
    destruct (evaluar ev modelo (prueba i)) as [x|e] eqn:Hx; cbn [bind].
    + destruct (IH (fun i' H => Hidx i' (or_intror H)) (acc ++ [x]))
        as [[j [e [Hj [Hprev [Hfail Hsim]]]]]|[nuevos [Hsim [Hlen Hall]]]].
      * left. exists (S j), e. split; [simpl; lia|]. split; [|split].
        -- intros [|j'] Hj'; simpl; [eauto | apply Hprev; lia].
        -- exact Hfail.
        -- exact Hsim.
      * right. exists (x :: nuevos). split; [|split].
        -- rewrite Hsim. now rewrite <- app_assoc.
        -- simpl. now rewrite Hlen.
        -- intros [|j] Hj; simpl; [exact Hx | apply Hall; simpl in Hj; lia].
    + left. exists O, e. split; [simpl; lia|]. split; [|split].
      * intros j' Hj'. lia.
      * exact Hx.
      * reflexivity.
Qed.

End Simulacion.



(** The deterministic case: a normal variable of mean 5 and deviation 0
    and the formula [x*2] give the outcome 10 at every trial. *)
Example ejecutar_determinista :
  ejecutar PyEval.eval np_acepta np_primero
    (mk_Modelo "x*2"
       [("x", mk_Variable "x" "normal" [("media", 5); ("desviacion", 0)])])
    3 0
  = Ok (mk_Resultados [VNp 10; VNp 10; VNp 10]).
Proof. vm_compute. reflexivity. Qed.

(** ** The trial count *)

Lemma ejecutar_sin_pruebas (ev : evaluador)
    (np_rechaza : llamada_np -> option excepcion)
    (np_draw : llamada_np -> nat -> Q)
    (modelo : Modelo) (n : Z) (s : nat) (ms : muestras_t) :
  (n <= 0)%Z ->
  muestrear np_rechaza np_draw (variables modelo) n s [] = Ok ms ->
  ejecutar ev np_rechaza np_draw modelo n s = Ok (mk_Resultados []).
Proof.
  intros Hn Hm. unfold ejecutar. rewrite Hm. cbn [bind]. unfold range.
  replace (Z.to_nat n) with O by lia. reflexivity.
Qed.

(** C3, as the code has it: the trial count is checked by the handler of
    the application, which shows the error of an invalid count and runs
    nothing when the text of the entry is no integer or an integer that is
    not positive; [Simulador.ejecutar] has no check of its own, and with a
    count that is not positive it returns empty results once the samples
    are drawn. *)
Theorem conteo_invalido_en_la_aplicacion (ev : evaluador)
    (np_rechaza : llamada_np -> option excepcion)
    (np_draw : llamada_np -> nat -> Q)
    (registro : dict Variable_) (formula_texto n_sim_texto : string)
    (s : nat) :
  registro <> [] ->
  strip formula_texto <> EmptyString ->
  (forall n, int n_sim_texto = Ok n -> (n <= 0)%Z) ->
  _ejecutar_simulacion ev np_rechaza np_draw registro formula_texto
      n_sim_texto s
    = DialogoError "Número de simulaciones inválido"
  /\ (forall modelo n ms,
        (n <= 0)%Z ->
        muestrear np_rechaza np_draw (variables modelo) n s [] = Ok ms ->
        ejecutar ev np_rechaza np_draw modelo n s = Ok (mk_Resultados [])).
Proof.
  intros Hv Hf Hn. split.
  - unfold _ejecutar_simulacion.
    destruct registro as [|kv r]; [contradiction|].
    destruct (String.eqb_spec (strip formula_texto) EmptyString) as [E|_];
      [contradiction|].
    destruct (int n_sim_texto) as [n|e] eqn:Hi; cbn [bind]; [|reflexivity].
    specialize (Hn n eq_refl).
    destruct (Z.leb_spec n 0); [reflexivity | lia].
  - intros modelo n ms Hle Hm. now apply (ejecutar_sin_pruebas _ _ _ _ _ _ ms).
Qed.

Lemma conteo_invalido_en_la_aplicacion_witness :
  _ejecutar_simulacion PyEval.eval np_acepta np_primero
      [("x", mk_Variable "x" "normal" [("media", 5); ("desviacion", 0)])]
      "x*2" "0" 0
    = DialogoError "Número de simulaciones inválido"
  /\ (forall modelo n ms,
        (n <= 0)%Z ->
        muestrear np_acepta np_primero (variables modelo) n 0 [] = Ok ms ->
        ejecutar PyEval.eval np_acepta np_primero modelo n 0
        = Ok (mk_Resultados [])).
Proof.
  apply (conteo_invalido_en_la_aplicacion PyEval.eval np_acepta np_primero
           [("x", mk_Variable "x" "normal" [("media", 5); ("desviacion", 0)])]
           "x*2" "0" 0).
  - discriminate.
  - vm_compute. discriminate.
  - vm_compute. intros n H. injection H as <-. discriminate.
Defined.

Example conteo_no_entero :
  _ejecutar_simulacion PyEval.eval np_acepta np_primero
      [("x", mk_Variable "x" "normal" [("media", 5); ("desviacion", 0)])]
      "x*2" "2.5" 0
    = DialogoError "Número de simulaciones inválido".
Proof. vm_compute. reflexivity. Qed.

(** C3, against the claim as stated: a run of the engine with the trial
    count 0 raises nothing and returns empty results. *)
Lemma ejecutar_cero_devuelve_vacio :
  ejecutar PyEval.eval np_acepta np_primero
    (mk_Modelo "x*2"
       [("x", mk_Variable "x" "normal" [("media", 5); ("desviacion", 0)])])
    0 0
  = Ok (mk_Resultados [])
  /\ ~ (exists e,
          ejecutar PyEval.eval np_acepta np_primero
            (mk_Modelo "x*2"
               [("x", mk_Variable "x" "normal"
                        [("media", 5); ("desviacion", 0)])])
            0 0
          = Raise e).
Proof.
  split; [vm_compute; reflexivity|].
  intros [e H]. vm_compute in H. discriminate.
Qed.

(** ** The goal evaluator *)

Lemma count_cons (p : Q -> bool) (x : Q) (l : list Q) :
  Stats.count p (x :: l) = ((if p x then 1 else 0) + Stats.count p l)%Z.
Proof.
  unfold Stats.count. simpl. destruct (p x); simpl length; lia.
Qed.

Lemma count_cota (p : Q -> bool) (l : list Q) :
  (0 <= Stats.count p l <= Z.of_nat (length l))%Z.
Proof.
  unfold Stats.count. pose proof (filter_length_le p l). lia.
Qed.

Lemma count_todos (p : Q -> bool) (l : list Q) :
  (forall x, In x l -> p x = true) -> Stats.count p l = Z.of_nat (length l).
Proof.
  induction l as [|x r IH]; intros H; [reflexivity|].
  rewrite count_cons, IH, (H x) by (simpl; auto; intros; apply H; simpl; auto).
  simpl length. lia.
Qed.

Lemma count_ninguno (p : Q -> bool) (l : list Q) :
  (forall x, In x l -> p x = false) -> Stats.count p l = 0%Z.
Proof.
  induction l as [|x r IH]; intros H; [reflexivity|].
  rewrite count_cons, IH, (H x) by (simpl; auto; intros; apply H; simpl; auto).
  reflexivity.
Qed.

Lemma Qlt_bool_iff (x y : Q) : Stats.Qlt_bool x y = true <-> x < y.
Proof.
  unfold Stats.Qlt_bool. rewrite negb_true_iff.
  split; intros H.
  - apply Qnot_le_lt. intros Hle. apply Qle_bool_iff in Hle. congruence.
  - destruct (Qle_bool y x) eqn:E; [|reflexivity].
    apply Qle_bool_iff in E. exfalso. now apply (Qlt_not_le x y).
Qed.

Lemma comparaciones (x t : Q) :
  ((if Stats.Qlt_bool x t then 1 else 0) + (if Qeq_bool x t then 1 else 0)
   = (if Qle_bool x t then 1 else 0))%Z.
Proof.
  destruct (Stats.Qlt_bool x t) eqn:Hlt, (Qeq_bool x t) eqn:Heq,
    (Qle_bool x t) eqn:Hle; try reflexivity; exfalso.
  - apply Qlt_bool_iff in Hlt. apply Qeq_bool_iff in Heq.
    rewrite Heq in Hlt. now apply (Qlt_irrefl t).
  - apply Qlt_bool_iff in Hlt. apply Qlt_le_weak in Hlt.
    apply Qle_bool_iff in Hlt. congruence.
  - apply Qlt_bool_iff in Hlt. apply Qlt_le_weak in Hlt.
    apply Qle_bool_iff in Hlt. congruence.
  - apply Qeq_bool_iff in Heq.
    assert (H : x <= t) by (rewrite Heq; apply Qle_refl).
    apply Qle_bool_iff in H. congruence.
  - apply Qle_bool_iff in Hle. apply Qle_lt_or_eq in Hle.
    destruct Hle as [H|H].
    + apply Qlt_bool_iff in H. congruence.
    + apply Qeq_bool_iff in H. congruence.
Qed.

Lemma count_izquierda_derecha (l : list Q) (t : Q) :
  (Stats.count (fun x => Stats.Qlt_bool x t) l
   + Stats.count (fun x => Qeq_bool x t) l
   = Stats.count (fun x => Qle_bool x t) l)%Z.
Proof.
  induction l as [|x r IH]; [reflexivity|].
  rewrite !count_cons. pose proof (comparaciones x t). lia.
Qed.

Lemma longitud_no_nula (l : list Q) :
  l <> [] -> ~ inject_Z (Z.of_nat (length l)) == 0.
Proof.
  intros Hl H. destruct l as [|x r]; [contradiction|].
  unfold Qeq in H. simpl in H. lia.
Qed.

Lemma percentileofscore_rank (datos : list Q) (target : Q) :
  datos <> [] ->
  Stats.percentileofscore datos target Stats.rank
  = Some (inject_Z
            (Stats.count (fun x => Stats.Qlt_bool x target) datos
             + Stats.count (fun x => Qle_bool x target) datos
             + (if (Stats.count (fun x => Stats.Qlt_bool x target) datos
                    <? Stats.count (fun x => Qle_bool x target) datos)%Z
                then 1 else 0))
          * (50 / inject_Z (Z.of_nat (length datos)))).
Proof.
  intros H. destruct datos; [contradiction | reflexivity].
Qed.




Example meta_fuera_del_rango :
  _actualizar_evaluador (Some [1; 2; 3; 4]) (Numero 0)
  = MetaResultado (0 * (50 / 4)) (100 - 0 * (50 / 4)) "green"
  /\ _actualizar_evaluador (Some [1; 2; 3; 4]) (Numero 9)
     = MetaResultado (8 * (50 / 4)) (100 - 8 * (50 / 4)) "red".
Proof. split; vm_compute; reflexivity. Qed.

(** ** The point estimator *)

Lemma expr_ind_anidada (P : PyEval.expr -> Prop) :
  (forall z, P (PyEval.EInt z)) ->
  (forall q, P (PyEval.EFloat q)) ->
  (forall n, P (PyEval.ENombre n)) ->
  (forall op a b, P a -> P b -> P (PyEval.EBin op a b)) ->
  (forall a, P a -> P (PyEval.ENeg a)) ->
  (forall a, P a -> P (PyEval.EPos a)) ->
  (forall f l, P f -> Forall P l -> P (PyEval.ELlamada f l)) ->
  (forall a n, P a -> P (PyEval.EAtributo a n)) ->
  forall e, P e.
Proof.
  intros Hi Hf Hn Hb Hneg Hpos Hc Ha.
  fix IH 1. intros [z|q|n|op a b|a|a|f l|a n].
  - apply Hi.
  - apply Hf.
  - apply Hn.
  - apply Hb; apply IH.
  - apply Hneg, IH.
  - apply Hpos, IH.
  - apply Hc; [apply IH|].
    revert l. fix IHl 1. intros [|a l].
    + constructor.
    + constructor; [apply IH | apply IHl].
  - apply Ha, IH.
Qed.

(** An expression that refers to a name bound nowhere has no value: every
    part of an expression of the fragment is evaluated. *)
Lemma nombre_sin_valor (k : string) (locals : dict valor) :
  dict_get k locals = None ->
  k <> "__builtins__" ->
  forall e v,
    menciona k e = true ->
    PyEval.eval_expr e globals_vacios locals <> Some (Ok v).
Proof.
  intros Hk Hb e. induction e using expr_ind_anidada; intros v Hm Hev;
    cbn [menciona] in Hm; cbn [PyEval.eval_expr] in Hev.
  - discriminate.
  - discriminate.
  - apply String.eqb_eq in Hm. subst n.
    unfold PyEval.buscar_nombre in Hev. rewrite Hk in Hev.
    simpl in Hev. destruct (String.eqb_spec k "__builtins__");
      [contradiction | discriminate].
  - apply luego_ok in Hev. destruct Hev as [x [Hx Hev]].
    apply luego_ok in Hev. destruct Hev as [y [Hy _]].
    apply orb_true_iff in Hm. destruct Hm as [Hm|Hm].
    + now apply (IHe1 x).
    + now apply (IHe2 y).
  - apply luego_ok in Hev. destruct Hev as [x [Hx _]]. now apply (IHe x).
  - apply luego_ok in Hev. destruct Hev as [x [Hx _]]. now apply (IHe x).
  - apply luego_ok in Hev. destruct Hev as [fv [Hfv Hev]].
    apply luego_ok in Hev. destruct Hev as [vs [Hvs _]].
    apply orb_true_iff in Hm. destruct Hm as [Hm|Hm].
    + now apply (IHe fv).
    + clear Hfv IHe. revert vs Hvs.
      induction l as [|a l IHl]; intros vs Hvs; [discriminate|].
      inversion H as [|? ? Ha Hl]; subst.
      apply luego_ok in Hvs. destruct Hvs as [x [Hx Hvs]].
      apply luego_ok in Hvs. destruct Hvs as [xs [Hxs _]].
      simpl in Hm. apply orb_true_iff in Hm. destruct Hm as [Hm|Hm].
      * now apply (Ha x).
      * now apply (IHl Hl Hm xs).
  - apply luego_ok in Hev. destruct Hev as [x [Hx _]]. now apply (IHe x).
Qed.

Lemma namespace_estimador_get (k0 : string) (x : Q) (k : string) :
  dict_get k (namespace_estimador k0 x)
  = if String.eqb k k0 then Some (VFloat x) else dict_get k funciones_namespace.
Proof.
  unfold namespace_estimador.
  destruct (String.eqb_spec k k0) as [->|Hne].
  - apply dict_get_set_eq.
  - now apply dict_get_set_neq.
Qed.

Lemma funciones_namespace_get (k : string) :
  ~ In k funciones_permitidas -> dict_get k funciones_namespace = None.
Proof.
  intros H. unfold funciones_namespace. simpl.
  repeat match goal with
         | |- context [String.eqb k ?s] =>
             destruct (String.eqb_spec k s) as [->|_];
             [exfalso; apply H; simpl; tauto|]
         end.
  reflexivity.
Qed.



(** The estimator scenario: one variable [x], the formula [x*100] and
    [x = 5] give [y = 500]. *)
Example estimador_escenario :
  exists percentil,
    _actualizar_estimador PyEval.eval error_de_ejemplo (Some [100; 400; 900])
      (Numero 5) "x*100"
      [("x", mk_Variable "x" "uniforme" [("minimo", 0); ("maximo", 10)])]
    = EstResultado (VFloat 500) percentil "green"
    /\ percentil == 200 / 3.
Proof. eexists. split; [vm_compute; reflexivity | reflexivity]. Qed.

(** A second declared variable is not bound by the estimator. *)
Example estimador_segunda_variable :
  _actualizar_estimador PyEval.eval error_de_ejemplo (Some [100; 400; 900])
    (Numero 5) "x + y"
    [("x", mk_Variable "x" "uniforme" [("minimo", 0); ("maximo", 10)]);
     ("y", mk_Variable "y" "uniforme" [("minimo", 0); ("maximo", 10)])]
  = EstTexto "→ Error: name 'y' is not defined" "red".
Proof. vm_compute. reflexivity. Qed.


(** ** Statistics *)

Lemma insertar_perm (x : Q) (l : list Q) : Permutation (Np.insertar x l) (x :: l).
Proof.
  induction l as [|y r IH]; simpl; [reflexivity|].
  destruct (Qle_bool x y); [reflexivity|].
  rewrite IH. apply perm_swap.
Qed.

Lemma sort_perm (l : list Q) : Permutation (Np.sort l) l.
Proof.
  induction l as [|x r IH]; simpl; [reflexivity|].
  rewrite insertar_perm. now constructor.
Qed.

Lemma insertar_sorted (x : Q) (l : list Q) :
  Sorted Qle l -> Sorted Qle (Np.insertar x l).
Proof.
  induction l as [|y r IH]; intros Hs; simpl.
  - repeat constructor.
  - destruct (Qle_bool x y) eqn:E.
    + constructor; [exact Hs|]. constructor. now apply Qle_bool_iff.
    + assert (Hyx : y <= x).
      { apply Qlt_le_weak, Qnot_le_lt. intros H.
        apply Qle_bool_iff in H. congruence. }
      inversion Hs as [|? ? Hr Hhd]; subst.
      constructor; [now apply IH|].
      destruct r as [|z r']; simpl.
      * now constructor.
      * destruct (Qle_bool x z); constructor; [exact Hyx|].
        now inversion Hhd.
Qed.

Lemma sort_sorted (l : list Q) : Sorted Qle (Np.sort l).
Proof.
  induction l as [|x r IH]; simpl; [constructor | now apply insertar_sorted].
Qed.

Lemma sort_length (l : list Q) : length (Np.sort l) = length l.
Proof. apply Permutation_length, sort_perm. Qed.

Lemma sum_no_negativa (l : list Q) :
  (forall x, In x l -> 0 <= x) -> 0 <= Np.sum l.
Proof.
  induction l as [|x r IH]; intros H; simpl.
  - apply Qle_refl.
  - apply (Qle_trans _ (0 + 0)); [discriminate|].
    apply Qplus_le_compat.
    + apply H. now left.
    + apply IH. intros y Hy. apply H. now right.
Qed.

Lemma cuadrado_no_negativo (q : Q) : 0 <= q * q.
Proof. unfold Qle, Qmult. simpl. nia. Qed.

Lemma size_max (a : list Q) : Z.max (Np.size a - 0) 0 = Z.of_nat (length a).
Proof. unfold Np.size. lia. Qed.

Lemma var_poblacional (a : list Q) :
  Np.var a 0 = Spec.varianza_poblacional a /\ 0 <= Np.var a 0.
Proof.
  unfold Np.var, Spec.varianza_poblacional, Np.mean. rewrite size_max.
  split; [reflexivity|].
  unfold Qdiv. apply Qmult_le_0_compat.
  - apply sum_no_negativa. intros x Hx. apply in_map_iff in Hx.
    destruct Hx as [y [<- _]]. apply cuadrado_no_negativo.
  - apply Qinv_le_0_compat. unfold Np.size, Qle. simpl. lia.
Qed.

Lemma std_poblacional (a : list Q) :
  (0 <= Np.std a 0)%R
  /\ (Np.std a 0 * Np.std a 0 = Q2R (Spec.varianza_poblacional a))%R.
Proof.
  destruct (var_poblacional a) as [Heq Hpos].
  unfold Np.std. split; [apply sqrt_pos|].
  rewrite sqrt_sqrt.
  - now rewrite Heq.
  - replace 0%R with (Q2R 0) by (unfold Q2R; simpl; lra).
    now apply Qle_Rle.
Qed.

Lemma Qmin_caso (x y : Q) : Qmin x y = x \/ Qmin x y = y.
Proof.
  unfold Qmin, GenericMinMax.gmin. destruct (Qcompare x y); auto.
Qed.

Lemma Qmax_caso (x y : Q) : Qmax x y = x \/ Qmax x y = y.
Proof.
  unfold Qmax, GenericMinMax.gmax. destruct (Qcompare x y); auto.
Qed.

Lemma fold_min (r : list Q) :
  forall x,
    In (fold_left Qmin r x) (x :: r)
    /\ forall y, In y (x :: r) -> fold_left Qmin r x <= y.
Proof.
  induction r as [|z r IH]; intros x; simpl.
  - split; [now left|]. intros y [<-|[]]. apply Qle_refl.
  - destruct (IH (Qmin x z)) as [Hin Hle]. split.
    + destruct Hin as [Hin|Hin]; [|now right; right].
      rewrite <- Hin. destruct (Qmin_caso x z) as [->| ->]; auto.
    + intros y [<-|[<-|Hy]].
      * apply Qle_trans with (Qmin x z); [apply Hle; now left|].
        apply Q.le_min_l.
      * apply Qle_trans with (Qmin x z); [apply Hle; now left|].
        apply Q.le_min_r.
      * apply Hle. now right.
Qed.

Lemma fold_max (r : list Q) :
  forall x,
    In (fold_left Qmax r x) (x :: r)
    /\ forall y, In y (x :: r) -> y <= fold_left Qmax r x.
Proof.
  induction r as [|z r IH]; intros x; simpl.
  - split; [now left|]. intros y [<-|[]]. apply Qle_refl.
  - destruct (IH (Qmax x z)) as [Hin Hle]. split.
    + destruct Hin as [Hin|Hin]; [|now right; right].
      rewrite <- Hin. destruct (Qmax_caso x z) as [->| ->]; auto.
    + intros y [<-|[<-|Hy]].
      * apply Qle_trans with (Qmax x z); [|apply Hle; now left].
        apply Q.le_max_l.
      * apply Qle_trans with (Qmax x z); [|apply Hle; now left].
        apply Q.le_max_r.
      * apply Hle. now right.
Qed.

Lemma min_es_minimo (a : list Q) :
  a <> [] -> In (Np.min a) a /\ forall y, In y a -> Np.min a <= y.
Proof.
  destruct a as [|x r]; [contradiction|]. intros _. apply fold_min.
Qed.

Lemma max_es_maximo (a : list Q) :
  a <> [] -> In (Np.max a) a /\ forall y, In y a -> y <= Np.max a.
Proof.
  destruct a as [|x r]; [contradiction|]. intros _. apply fold_max.
Qed.

Lemma firstn_skipn_uno (s : list Q) (d : Q) :
  forall i, (i < length s)%nat -> firstn 1 (skipn i s) = [nth i s d].
Proof.
  induction s as [|x r IH]; intros i Hi; simpl in Hi; [lia|].
  destruct i as [|i]; simpl; [reflexivity|]. apply IH. lia.
Qed.

Lemma firstn_skipn_dos (s : list Q) (d : Q) :
  forall i, (S i < length s)%nat ->
    firstn 2 (skipn i s) = [nth i s d; nth (S i) s d].
Proof.
  induction s as [|x r IH]; intros i Hi; simpl in Hi; [lia|].
  destruct i as [|i].
  - destruct r as [|y r']; simpl in *; [lia | reflexivity].
  - change (skipn (S i) (x :: r)) with (skipn i r).
    change (nth (S i) (x :: r) d) with (nth i r d).
    change (nth (S (S i)) (x :: r) d) with (nth (S i) r d).
    apply IH. lia.
Qed.

Lemma median_es_mediana (a : list Q) :
  a <> [] -> Np.median a == Spec.mediana (Np.sort a).
Proof.
  intros Hne. unfold Np.median, Spec.mediana. rewrite sort_length.
  assert (Hn : (0 < length a)%nat) by (destruct a; [contradiction | simpl; lia]).
  destruct (Nat.odd (length a)) eqn:Hodd.
  - rewrite (firstn_skipn_uno _ 0).
    + unfold Np.mean, Np.sum, Np.size. simpl. field.
    + rewrite sort_length. apply Nat.div_lt; lia.
  - assert (H2 : (2 <= length a)%nat).
    { destruct (length a) as [|[|m]]; [lia | discriminate | lia]. }
    assert (Hd : (1 <= length a / 2)%nat)
      by (apply Nat.div_le_lower_bound; lia).
    assert (Hlt : (length a / 2 < length a)%nat) by (apply Nat.div_lt; lia).
    rewrite (firstn_skipn_dos _ 0).
    + replace (S (length a / 2 - 1)) with (length a / 2)%nat by lia.
      unfold Np.mean, Np.sum, Np.size. simpl. field.
    + rewrite sort_length. lia.
Qed.

Lemma percentile_es_interpolacion (a : list Q) (p : Q) :
  a <> [] -> 0 <= p -> p <= 100 ->
  Np.percentile a p == Spec.percentil a (Np.sort a) p.
Proof.
  intros Hne Hp0 Hp1.
  assert (Hn : (1 <= Z.of_nat (length a))%Z)
    by (destruct a; [contradiction | simpl length; lia]).
  unfold Np.percentile, Spec.percentil, Spec.interpolacion, Np.size.
  set (Nz := Z.of_nat (length a)) in *.
  set (s := Np.sort a).
  set (v := inject_Z (Nz - 1) * (p / 100)).
  set (h := inject_Z (Nz - 1) * p / 100).
  assert (Hvh : v == h) by (unfold v, h; field).
  rewrite (Qfloor_comp _ _ Hvh).
  set (f := Qfloor h).
  assert (Hm : 0 <= inject_Z (Nz - 1)) by (unfold Qle; simpl; lia).
  assert (Hh0 : 0 <= h).
  { rewrite <- Hvh. unfold v. apply Qmult_le_0_compat; [exact Hm|].
    apply Qle_shift_div_l; [reflexivity|]. now rewrite Qmult_0_l. }
  assert (Hh1 : h <= inject_Z (Nz - 1)).
  { rewrite <- Hvh. unfold v.
    apply Qle_trans with (inject_Z (Nz - 1) * 1);
      [|rewrite Qmult_1_r; apply Qle_refl].
    rewrite !(Qmult_comm (inject_Z (Nz - 1))).
    apply Qmult_le_compat_r; [|exact Hm].
    apply Qle_shift_div_r; [reflexivity|]. now rewrite Qmult_1_l. }
  assert (Hf0 : (0 <= f)%Z).
  { change 0%Z with (Qfloor 0). now apply Qfloor_resp_le. }
  assert (Hf1 : (f <= Nz - 1)%Z).
  { rewrite <- (Qfloor_Z (Nz - 1)). now apply Qfloor_resp_le. }
  assert (Hk : Np.clip f (length a) = Z.to_nat f).
  { unfold Np.clip. fold Nz. f_equal. lia. }
  rewrite Hk.
  destruct (Z.eq_dec f (Nz - 1)) as [Hlast|Hin].
  - assert (Hk1 : Np.clip (f + 1) (length a) = Z.to_nat f).
    { unfold Np.clip. fold Nz. f_equal. lia. }
    rewrite Hk1.
    assert (Hg : h - inject_Z f == 0).
    { apply Qle_antisym.
      - rewrite Hlast. apply (Qplus_le_l _ _ (inject_Z (Nz - 1))).
        ring_simplify. exact Hh1.
      - apply (Qplus_le_l _ _ (inject_Z f)). ring_simplify.
        apply Qfloor_le. }
    rewrite Hvh, Hg. ring.
  - assert (Hk1 : Np.clip (f + 1) (length a) = S (Z.to_nat f)).
    { unfold Np.clip. fold Nz. rewrite <- Z2Nat.inj_succ by lia. f_equal. lia. }
    rewrite Hk1, Hvh. ring.
Qed.



Example estadisticas_de_cuatro :
  Np.mean [4; 1; 3; 2] == 2.5
  /\ Np.median [4; 1; 3; 2] == 2.5
  /\ Np.var [4; 1; 3; 2] 0 == 1.25
  /\ Np.min [4; 1; 3; 2] == 1
  /\ Np.max [4; 1; 3; 2] == 4
  /\ Np.percentile [4; 1; 3; 2] 25 == 1.75
  /\ Np.percentile [4; 1; 3; 2] 97.5 == 3.925.
Proof. repeat split; vm_compute; reflexivity. Qed.

(* ================================================================== *)
(** * Further properties of the code *)

(** ** Sampling *)

Lemma parametro_presente (v : Variable_) (k : string) :
  dict_in k (parametros v) = true -> exists q, parametro v k = Ok q.
Proof.
  unfold dict_in, parametro.
  destruct (dict_get k (parametros v)); [eauto | discriminate].
Qed.

Lemma np_random_acepta (np_rechaza : llamada_np -> option excepcion)
    (np_draw : llamada_np -> nat -> Q) (c : llamada_np) (n : Z) (s : nat) :
  np_rechaza c = None -> (0 <= n)%Z ->
  exists l,
    np_random np_rechaza np_draw c n s = Ok l
    /\ length l = Z.to_nat n
    /\ Forall (fun x => exists q, x = VNp q) l.
Proof.
  intros Hr Hn. unfold np_random. rewrite Hr.
  destruct (Z.ltb_spec n 0); [lia|].
  eexists. split; [reflexivity|]. split.
  - now rewrite length_map, length_seq.
  - apply Forall_forall. intros x Hx. apply in_map_iff in Hx.
    destruct Hx as [k [<- _]]. eauto.
Qed.

Ltac leer_parametro H k :=
  let q := fresh "q" in
  let Hq := fresh "Hq" in
  destruct (parametro_presente _ k (H k ltac:(simpl; tauto))) as [q Hq];
  rewrite Hq; cbn [bind].

Ltac sortear Hr Hn :=
  match goal with
  | |- context [np_random ?r ?d ?c ?n ?s] =>
      let l := fresh "l" in
      let Hl := fresh "Hl" in
      destruct (np_random_acepta r d c n s (Hr c) Hn) as [l [Hl ?]];
      rewrite Hl; cbn [bind]; exists l; split; [reflexivity | tauto]
  end.

Ltac muestrear_por_clase v Hr Hn Hd Hk :=
  unfold generar_muestra;
  unfold distribuciones_validas in Hd; simpl in Hd;
  destruct Hd as [E|[E|[E|[E|[E|[E|[]]]]]]];
    rewrite <- E in Hk |- *; simpl in Hk;
    cbn [String.eqb Ascii.eqb Bool.eqb];
  [ leer_parametro Hk "media"; leer_parametro Hk "desviacion"
  | leer_parametro Hk "minimo"; leer_parametro Hk "maximo"
  | leer_parametro Hk "minimo"; leer_parametro Hk "moda";
    leer_parametro Hk "maximo"
  | leer_parametro Hk "media_log"; leer_parametro Hk "desviacion_log"
  | leer_parametro Hk "n"; leer_parametro Hk "p"
  | leer_parametro Hk "lambda" ];
  sortear Hr Hn.

(** X1: when numpy accepts the arguments and the count is not negative, a
    variable of one of the six kinds whose parameters hold the keys that
    the form creates for its kind is sampled without error, and the sample
    is an array of exactly [n] numpy scalars. *)
Theorem muestra_de_n_valores (np_rechaza : llamada_np -> option excepcion)
    (np_draw : llamada_np -> nat -> Q) (v : Variable_) (n : Z) (s : nat) :
  (forall c, np_rechaza c = None) ->
  (0 <= n)%Z ->
  In (distribucion v) distribuciones_validas ->
  (forall k, In k (App._actualizar_parametros (distribucion v)) ->
             dict_in k (parametros v) = true) ->
  exists l,
    generar_muestra np_rechaza np_draw v n s = Ok (Some l)
    /\ length l = Z.to_nat n
    /\ Forall (fun x => exists q, x = VNp q) l.
Proof.
  intros Hr Hn Hd Hk. muestrear_por_clase v Hr Hn Hd Hk.
Qed.

Lemma muestra_de_n_valores_witness :
  exists l,
    generar_muestra np_acepta np_primero
      (mk_Variable "t" "triangular"
         [("minimo", 0); ("moda", 1); ("maximo", 4); ("nota", 7)]) 3 0
    = Ok (Some l)
    /\ length l = Z.to_nat 3
    /\ Forall (fun x => exists q, x = VNp q) l.
Proof.
  apply (muestra_de_n_valores np_acepta np_primero
           (mk_Variable "t" "triangular"
              [("minimo", 0); ("moda", 1); ("maximo", 4); ("nota", 7)]) 3 0).
  - reflexivity.
  - lia.
  - simpl. tauto.
  - simpl. intros k [<-|[<-|[<-|[]]]]; reflexivity.
Defined.

(** X2: when a variable of one of the six kinds lacks one of the keys of
    its kind, sampling raises the [KeyError] of the first key that is
    absent, in the order the keys are read, whatever the count and the
    random source. *)
Theorem muestra_sin_parametro (np_rechaza : llamada_np -> option excepcion)
    (np_draw : llamada_np -> nat -> Q) (v : Variable_) (n : Z) (s : nat)
    (k : string) :
  In (distribucion v) distribuciones_validas ->
  find (fun k => negb (dict_in k (parametros v)))
       (App._actualizar_parametros (distribucion v)) = Some k ->
  generar_muestra np_rechaza np_draw v n s = Raise (KeyError k).
Proof.
  intros Hd Hf. unfold generar_muestra.
  unfold distribuciones_validas in Hd. simpl in Hd.
  destruct Hd as [E|[E|[E|[E|[E|[E|[]]]]]]];
    rewrite <- E in Hf |- *; simpl in Hf;
    cbn [String.eqb Ascii.eqb Bool.eqb];
    unfold dict_in in Hf; unfold parametro;
    repeat match type of Hf with
           | context [dict_get ?key (parametros v)] =>
               destruct (dict_get key (parametros v)); cbn [negb bind] in Hf |- *
           end;
    try discriminate; now injection Hf as <-.
Qed.

Lemma muestra_sin_parametro_witness :
  generar_muestra np_acepta np_primero
    (mk_Variable "t" "triangular" [("minimo", 0); ("maximo", 4)]) 3 0
  = Raise (KeyError "moda").
Proof.
  apply (muestra_sin_parametro np_acepta np_primero
           (mk_Variable "t" "triangular" [("minimo", 0); ("maximo", 4)]) 3 0
           "moda").
  - simpl. tauto.
  - reflexivity.
Defined.

(** ** The registry of variables *)

Lemma leer_parametros_claves (items : dict App.campo) :
  forall acc p,
    App.leer_parametros items acc = App.Leidos p ->
    forall k, In k (keys items) \/ dict_in k acc = true -> dict_in k p = true.
Proof.
  induction items as [|[key entry] r IH]; intros acc p H k Hk; simpl in H.
  - injection H as <-. destruct Hk as [[]|Hk]. exact Hk.
  - destruct entry as [| |q]; try discriminate.
    apply (IH _ _ H). simpl in Hk. unfold dict_in in *.
    destruct (String.eqb_spec k key) as [->|Hne].
    + right. now rewrite dict_get_set_eq.
    + destruct Hk as [[Hk|Hk]|Hk]; [congruence | now left |].
      right. now rewrite dict_get_set_neq.
Qed.

Lemma agregar_exito (st st' : App.estado) (nombre_var dist : string)
    (entries : dict App.campo) (msg : string) :
  App._agregar_variable st nombre_var dist entries = (st', App.ShowInfo msg) ->
  exists p,
    App.leer_parametros entries [] = App.Leidos p
    /\ In dist distribuciones_validas
    /\ strip nombre_var <> EmptyString
    /\ dict_in (strip nombre_var) (App.variables st) = false
    /\ st' = App.mk_estado
               (dict_set (strip nombre_var)
                  (mk_Variable (strip nombre_var) dist p) (App.variables st))
               (App.lista_variables st ++ [App.fila (strip nombre_var) dist]).
Proof.
  unfold App._agregar_variable.
  destruct (String.eqb_spec (strip nombre_var) EmptyString) as [|Hn];
    [discriminate|].
  destruct (dict_in (strip nombre_var) (App.variables st)) eqn:Hin;
    [discriminate|].
  destruct (String.eqb dist EmptyString); [discriminate|].
  destruct (App.leer_parametros entries []) as [| |p] eqn:Hl; try discriminate.
  rewrite Variable_init_ok.
  destruct (en_lista dist distribuciones_validas) eqn:Hd; [|discriminate].
  intros H. injection H as <- _. exists p.
  repeat split; auto. now apply en_lista_In.
Qed.

(** X3: a variable added through the form, whose entries are those the
    form creates for the selected distribution, is registered under the
    stripped name with that distribution, and it is sampled without a
    missing parameter: with a random source that accepts its arguments the
    sample has exactly [n] values. *)
Theorem variable_del_formulario (st st' : App.estado)
    (nombre_var dist : string) (entries : dict App.campo) (msg : string) :
  keys entries = App._actualizar_parametros dist ->
  App._agregar_variable st nombre_var dist entries = (st', App.ShowInfo msg) ->
  exists variable,
    dict_get (strip nombre_var) (App.variables st') = Some variable
    /\ nombre variable = strip nombre_var
    /\ distribucion variable = dist
    /\ forall np_draw n s,
         (0 <= n)%Z ->
         exists l,
           generar_muestra np_acepta np_draw variable n s = Ok (Some l)
           /\ length l = Z.to_nat n.
Proof.
  intros Hk H. apply agregar_exito in H.
  destruct H as [p [Hl [Hd [_ [_ ->]]]]].
  exists (mk_Variable (strip nombre_var) dist p).
  split; [apply dict_get_set_eq|]. split; [reflexivity|].
  split; [reflexivity|].
  intros np_draw n s Hn.
  assert (Hr : forall c, np_acepta c = None) by reflexivity.
  remember (mk_Variable (strip nombre_var) dist p) as v eqn:Ev.
  assert (Hc : forall k, In k (App._actualizar_parametros (distribucion v)) ->
                         dict_in k (parametros v) = true).
  { subst v. cbn [distribucion parametros]. intros k Hin.
    apply (leer_parametros_claves entries [] p Hl). left. now rewrite Hk. }
  assert (Hv : In (distribucion v) distribuciones_validas)
    by (subst v; exact Hd).
  clear Ev Hk Hl Hd. muestrear_por_clase v Hr Hn Hv Hc.
Qed.

Lemma variable_del_formulario_witness :
  let st := App.mk_estado [] [] in
  let st' :=
    App.mk_estado
      [("x", mk_Variable "x" "uniforme" [("minimo", 0); ("maximo", 10)])]
      ["x (uniforme)"] in
  exists variable,
    dict_get (strip " x ") (App.variables st') = Some variable
    /\ nombre variable = strip " x "
    /\ distribucion variable = "uniforme"
    /\ forall np_draw n s,
         (0 <= n)%Z ->
         exists l,
           generar_muestra np_acepta np_draw variable n s = Ok (Some l)
           /\ length l = Z.to_nat n.
Proof.
  intros st st'.
  apply (variable_del_formulario st st' " x " "uniforme"
           [("minimo", App.CampoNumero 0); ("maximo", App.CampoNumero 10)]
           "Variable 'x' agregada correctamente").
  - reflexivity.
  - vm_compute. reflexivity.
Defined.

Lemma dict_set_nuevo {V} (k : string) (v : V) (d : dict V) :
  dict_in k d = false -> dict_set k v d = d ++ [(k, v)].
Proof.
  unfold dict_in. induction d as [|[k' v'] r IH]; simpl; [reflexivity|].
  destruct (String.eqb k k'); [discriminate|].
  intros H. now rewrite IH.
Qed.

Lemma dict_in_falso {V} (k : string) (d : dict V) :
  dict_in k d = false <-> ~ In k (keys d).
Proof.
  rewrite <- dict_in_keys. destruct (dict_in k d).
  - split; [discriminate | intros H; exfalso; now apply H].
  - split; [intros _ H; discriminate | reflexivity].
Qed.

Lemma agregar_sin_exito (st : App.estado) (nombre_var dist : string)
    (entries : dict App.campo) :
  fst (App._agregar_variable st nombre_var dist entries) = st
  \/ exists msg,
       App._agregar_variable st nombre_var dist entries
       = (fst (App._agregar_variable st nombre_var dist entries),
          App.ShowInfo msg).
Proof.
  unfold App._agregar_variable.
  destruct (String.eqb (strip nombre_var) EmptyString); [now left|].
  destruct (dict_in (strip nombre_var) (App.variables st)); [now left|].
  destruct (String.eqb dist EmptyString); [now left|].
  destruct (App.leer_parametros entries []); try (now left).
  destruct (Variable_init _ _ _); [|now left].
  right. eexists. reflexivity.
Qed.

Lemma agregar_conserva_el_registro_aux (st : App.estado)
    (nombre_var dist : string) (entries : dict App.campo) :
  App.coherente st ->
  App.coherente (fst (App._agregar_variable st nombre_var dist entries)).
Proof.
  intros [Hnd Hl].
  destruct (agregar_sin_exito st nombre_var dist entries) as [->|[msg H]];
    [now split|].
  apply agregar_exito in H. destruct H as [p [_ [_ [_ [Hin ->]]]]].
  unfold App.coherente. cbn [App.variables App.lista_variables].
  rewrite (dict_set_nuevo _ _ _ Hin). unfold keys. rewrite !map_app.
  split.
  - apply NoDup_app; [exact Hnd | repeat constructor; simpl; tauto |].
    intros x Hx [<-|[]]. now apply dict_in_falso in Hin.
  - now rewrite Hl.
Qed.

(** X4: adding a variable keeps the registry coherent, the rows of the
    list box being those of the variables with no name registered twice,
    and it never changes or removes a variable that is registered: a name
    already in use is refused. *)
Theorem agregar_conserva_el_registro (st : App.estado)
    (nombre_var dist : string) (entries : dict App.campo) :
  App.coherente st ->
  App.coherente (fst (App._agregar_variable st nombre_var dist entries))
  /\ (forall k v,
        dict_get k (App.variables st) = Some v ->
        dict_get k
          (App.variables (fst (App._agregar_variable st nombre_var dist entries)))
        = Some v)
  /\ (dict_in (strip nombre_var) (App.variables st) = true ->
      App._agregar_variable st nombre_var dist entries
      = (st, App.ShowError ("La variable '" ++ strip nombre_var ++ "' ya existe"))
      \/ strip nombre_var = EmptyString).
Proof.
  intros Hc.
  split; [|split].
  - now apply agregar_conserva_el_registro_aux.
  - intros k v Hk.
    destruct (agregar_sin_exito st nombre_var dist entries) as [->|[msg H]];
      [exact Hk|].
    apply agregar_exito in H. destruct H as [p [_ [_ [_ [Hin ->]]]]].
    cbn [App.variables].
    rewrite dict_get_set_neq; [exact Hk|].
    intros ->. unfold dict_in in Hin. now rewrite Hk in Hin.
  - intros Hin. unfold App._agregar_variable.
    destruct (String.eqb_spec (strip nombre_var) EmptyString) as [E|_];
      [now right|].
    rewrite Hin. now left.
Qed.

Lemma agregar_conserva_el_registro_witness :
  let st :=
    App.mk_estado
      [("x", mk_Variable "x" "uniforme" [("minimo", 0); ("maximo", 10)])]
      ["x (uniforme)"] in
  let entries := [("lambda", App.CampoNumero 3)] in
  App.coherente (fst (App._agregar_variable st "y" "poisson" entries))
  /\ (forall k v,
        dict_get k (App.variables st) = Some v ->
        dict_get k
          (App.variables (fst (App._agregar_variable st "y" "poisson" entries)))
        = Some v)
  /\ (dict_in (strip "y") (App.variables st) = true ->
      App._agregar_variable st "y" "poisson" entries
      = (st, App.ShowError ("La variable '" ++ strip "y" ++ "' ya existe"))
      \/ strip "y" = EmptyString).
Proof.
  intros st entries.
  apply (agregar_conserva_el_registro st "y" "poisson" entries).
  split; [|reflexivity].
  repeat constructor. simpl. tauto.
Defined.

Lemma antes_de_fila (p resto : string) :
  App.aparece " (" p = false ->
  App.antes_de " (" (p ++ " (" ++ resto) = p.
Proof.
  induction p as [|c r IH]; intros H; [reflexivity|].
  cbn [App.aparece] in H. apply orb_false_iff in H. destruct H as [H1 H2].
  change ((String c r ++ " (" ++ resto)%string)
    with (String c (r ++ " (" ++ resto)).
  cbn [App.antes_de].
  assert (E : App.empieza_con " (" (String c (r ++ " (" ++ resto)) = false).
  { cbn [App.empieza_con] in H1 |- *.
    destruct (Ascii.eqb " " c); [|reflexivity]. cbn [andb] in H1 |- *.
    destruct r as [|b r']; [reflexivity | exact H1]. }
  rewrite E. f_equal. now apply IH.
Qed.

Lemma borrar_map {A B} (f : A -> B) (idx : nat) (l : list A) :
  App.borrar idx (map f l) = map f (App.borrar idx l).
Proof.
  unfold App.borrar. now rewrite map_app, firstn_map, skipn_map.
Qed.

Lemma dict_del_indice (d : dict Variable_) :
  forall idx k v,
    NoDup (keys d) -> nth_error d idx = Some (k, v) ->
    dict_get k d = Some v /\ App.dict_del k d = App.borrar idx d.
Proof.
  induction d as [|[k' v'] r IH]; intros idx k v Hnd Hn.
  - destruct idx; discriminate.
  - simpl in Hnd. inversion Hnd as [|? ? Hnotin Hnd']; subst.
    destruct idx as [|idx]; simpl in Hn.
    + injection Hn as -> ->. simpl. rewrite String.eqb_refl.
      split; reflexivity.
    + destruct (IH idx k v Hnd' Hn) as [Hg Hd].
      assert (Hne : k <> k').
      { intros ->. apply Hnotin. apply nth_error_In in Hn.
        now apply (in_map fst) in Hn. }
      simpl. destruct (String.eqb_spec k k'); [contradiction|].
      split; [exact Hg|]. rewrite Hd. reflexivity.
Qed.

Lemma borrar_NoDup {A} (idx : nat) (l : list A) :
  NoDup l -> NoDup (App.borrar idx l).
Proof.
  intros H. unfold App.borrar.
  rewrite <- (firstn_skipn idx l) in H.
  apply NoDup_app_remove_l in H as H2.
  assert (H3 : NoDup (firstn idx l)) by (now apply NoDup_app_remove_r in H).
  apply NoDup_app; [exact H3 | |].
  - destruct (skipn idx l) as [|x r] eqn:E.
    + replace (skipn (S idx) l) with (@nil A); [constructor|].
      symmetry. apply skipn_all2. apply (f_equal (@length A)) in E.
      rewrite length_skipn in E. simpl in E. lia.
    + replace (skipn (S idx) l) with r.
      * now inversion H2.
      * change (S idx) with (1 + idx)%nat. rewrite <- skipn_skipn, E.
        reflexivity.
  - intros x Hx Hx'.
    assert (Hx'' : In x (skipn idx l)).
    { change (S idx) with (1 + idx)%nat in Hx'.
      rewrite <- skipn_skipn in Hx'.
      destruct (skipn idx l); [destruct Hx' | now right]. }
    revert Hx Hx''. clear -H.
    induction (firstn idx l) as [|y f IHf]; intros Hx Hx''; [destruct Hx|].
    simpl in H. inversion H as [|? ? Hn Hr]; subst.
    destruct Hx as [->|Hx].
    + apply Hn. apply in_or_app. now right.
    + now apply IHf.
Qed.

Lemma fila_de_indice (st : App.estado) (idx : nat) (k : string) (v : Variable_) :
  App.coherente st -> nth_error (App.variables st) idx = Some (k, v) ->
  nth idx (App.lista_variables st) EmptyString = App.fila k (distribucion v).
Proof.
  intros [_ Hl] Hn. rewrite Hl.
  apply nth_error_nth.
  now rewrite nth_error_map, Hn.
Qed.

(** X5: in a coherent registry, removing the selected row of a variable
    whose name holds no [" ("] removes that variable and that row: the
    variable is no longer registered, the others keep their order, and the
    registry stays coherent. *)
Theorem eliminar_la_seleccionada (st : App.estado) (idx : nat)
    (otras : list nat) (k : string) (v : Variable_) :
  App.coherente st ->
  nth_error (App.variables st) idx = Some (k, v) ->
  App.aparece " (" k = false ->
  exists st',
    App._eliminar_variable st (idx :: otras)
    = Ok (st', App.ShowInfo ("Variable '" ++ k ++ "' eliminada"))
    /\ App.variables st' = App.borrar idx (App.variables st)
    /\ App.lista_variables st' = App.borrar idx (App.lista_variables st)
    /\ dict_get k (App.variables st') = None
    /\ App.coherente st'.
Proof.
  intros Hc Hn Hk.
  pose proof (fila_de_indice st idx k v Hc Hn) as Hf.
  destruct Hc as [Hnd Hl].
  destruct (dict_del_indice _ idx k v Hnd Hn) as [Hg Hd].
  unfold App._eliminar_variable. rewrite Hf. unfold App.fila.
  rewrite (antes_de_fila k _ Hk), Hg, Hd.
  eexists. split; [reflexivity|]. cbn [App.variables App.lista_variables].
  assert (Hnd' : NoDup (keys (App.borrar idx (App.variables st)))).
  { unfold keys. rewrite <- borrar_map. now apply borrar_NoDup. }
  split; [reflexivity|]. split; [reflexivity|]. split.
  - destruct (dict_get k (App.borrar idx (App.variables st))) as [w|] eqn:E;
      [|reflexivity].
    exfalso.
    assert (Hin : In k (keys (App.borrar idx (App.variables st)))).
    { apply dict_in_keys. unfold dict_in. now rewrite E. }
    unfold keys in Hin. rewrite <- borrar_map in Hin. unfold App.borrar in Hin.
    fold (keys (App.variables st)) in Hin.
    assert (Hk' : nth_error (keys (App.variables st)) idx = Some k)
      by (unfold keys; now rewrite nth_error_map, Hn).
    clear -Hnd Hin Hk'. revert idx Hin Hk'.
    induction (keys (App.variables st)) as [|x r IH]; intros idx Hin Hk'.
    + destruct idx; discriminate.
    + inversion Hnd as [|? ? Hx Hr]; subst.
      destruct idx as [|idx]; simpl in *.
      * injection Hk' as ->. contradiction.
      * destruct Hin as [->|Hin].
        -- apply Hx. now apply nth_error_In in Hk'.
        -- now apply (IH Hr idx).
  - split; [exact Hnd'|]. rewrite Hl. apply borrar_map.
Qed.

Lemma eliminar_la_seleccionada_witness :
  let st :=
    App.mk_estado
      [("x", mk_Variable "x" "uniforme" [("minimo", 0); ("maximo", 10)]);
       ("y", mk_Variable "y" "poisson" [("lambda", 3)])]
      ["x (uniforme)"; "y (poisson)"] in
  exists st',
    App._eliminar_variable st [O]
    = Ok (st', App.ShowInfo ("Variable '" ++ "x" ++ "' eliminada"))
    /\ App.variables st' = App.borrar 0 (App.variables st)
    /\ App.lista_variables st' = App.borrar 0 (App.lista_variables st)
    /\ dict_get "x" (App.variables st') = None
    /\ App.coherente st'.
Proof.
  intros st.
  apply (eliminar_la_seleccionada st 0 [] "x"
           (mk_Variable "x" "uniforme" [("minimo", 0); ("maximo", 10)])).
  - split; [|reflexivity]. repeat constructor; simpl; intuition discriminate.
  - reflexivity.
  - reflexivity.
Defined.

Lemma borrar_ultimo {A} (l : list A) (x : A) :
  App.borrar (length l) (l ++ [x]) = l.
Proof.
  unfold App.borrar.
  rewrite firstn_app, firstn_all, Nat.sub_diag, skipn_all2.
  - simpl. now rewrite !app_nil_r.
  - rewrite length_app. simpl. lia.
Qed.

Lemma dict_del_nuevo {V} (k : string) (v : V) (d : dict V) :
  dict_in k d = false -> App.dict_del k (d ++ [(k, v)]) = d.
Proof.
  unfold dict_in. induction d as [|[k' v'] r IH]; simpl.
  - now rewrite String.eqb_refl.
  - destruct (String.eqb k k'); [discriminate|].
    intros H. now rewrite IH.
Qed.

(** X6: adding a variable whose name holds no [" ("] and then removing the
    last row of the list box gives back the registry as it was. *)
Theorem agregar_y_eliminar (st st' : App.estado) (nombre_var dist : string)
    (entries : dict App.campo) (msg : string) :
  App._agregar_variable st nombre_var dist entries = (st', App.ShowInfo msg) ->
  App.aparece " (" (strip nombre_var) = false ->
  App._eliminar_variable st' [length (App.lista_variables st)]
  = Ok (st, App.ShowInfo ("Variable '" ++ strip nombre_var ++ "' eliminada")).
Proof.
  intros Ha Hk.
  apply agregar_exito in Ha. destruct Ha as [p [_ [_ [_ [Hin ->]]]]].
  unfold App._eliminar_variable. cbn [App.variables App.lista_variables].
  rewrite app_nth2, Nat.sub_diag by lia. cbn [nth]. unfold App.fila.
  rewrite (antes_de_fila _ _ Hk), dict_get_set_eq.
  rewrite (dict_set_nuevo _ _ _ Hin), (dict_del_nuevo _ _ _ Hin), borrar_ultimo.
  destruct st. reflexivity.
Qed.

Lemma agregar_y_eliminar_witness :
  let st :=
    App.mk_estado
      [("x", mk_Variable "x" "uniforme" [("minimo", 0); ("maximo", 10)])]
      ["x (uniforme)"] in
  App._eliminar_variable
    (App.mk_estado
       [("x", mk_Variable "x" "uniforme" [("minimo", 0); ("maximo", 10)]);
        ("y", mk_Variable "y" "poisson" [("lambda", 3)])]
       ["x (uniforme)"; "y (poisson)"])
    [length (App.lista_variables st)]
  = Ok (st, App.ShowInfo ("Variable '" ++ strip "y " ++ "' eliminada")).
Proof.
  intros st.
  apply (agregar_y_eliminar st _ "y " "poisson"
           [("lambda", App.CampoNumero 3)]
           "Variable 'y' agregada correctamente").
  - vm_compute. reflexivity.
  - vm_compute. reflexivity.
Defined.

Lemma append_asociativa (a b c : string) :
  ((a ++ b) ++ c)%string = (a ++ b ++ c)%string.
Proof.
  induction a as [|x a IH]; simpl; [reflexivity | now rewrite IH].
Qed.

(** X7: a registered name that holds [" ("] cannot be removed through the
    list box: the handler takes the text before the first [" ("] of the
    row for the name, and when no variable bears that text it raises a
    [KeyError] and leaves the registry as it is. *)
Theorem eliminar_nombre_con_parentesis (st : App.estado) (idx : nat)
    (otras : list nat) (p q : string) (v : Variable_) :
  App.coherente st ->
  nth_error (App.variables st) idx = Some ((p ++ " (" ++ q)%string, v) ->
  App.aparece " (" p = false ->
  dict_in p (App.variables st) = false ->
  App._eliminar_variable st (idx :: otras) = Raise (KeyError p).
Proof.
  intros Hc Hn Hp Hin.
  pose proof (fila_de_indice st idx _ v Hc Hn) as Hf.
  unfold App._eliminar_variable. rewrite Hf. unfold App.fila.
  rewrite append_asociativa.
  change ((" (" ++ q) ++ " (" ++ distribucion v ++ ")")%string
    with (" (" ++ (q ++ " (" ++ distribucion v ++ ")"))%string.
  rewrite (antes_de_fila p _ Hp).
  unfold dict_in in Hin.
  destruct (dict_get p (App.variables st)); [discriminate | reflexivity].
Qed.

Lemma eliminar_nombre_con_parentesis_witness :
  App._eliminar_variable
    (fst (App._agregar_variable (App.mk_estado [] []) "costo (USD)" "normal"
            [("media", App.CampoNumero 5); ("desviacion", App.CampoNumero 1)]))
    [O]
  = Raise (KeyError "costo").
Proof.
  apply (eliminar_nombre_con_parentesis _ 0 [] "costo" "USD)"
           (mk_Variable "costo (USD)" "normal"
              [("media", 5); ("desviacion", 1)])).
  - split; [|reflexivity]. repeat constructor. simpl. tauto.
  - reflexivity.
  - reflexivity.
  - reflexivity.
Defined.

(** ** Runs of the engine and of the simulation handler *)

Lemma simular_longitud (ev : evaluador) (modelo : Modelo) (ms : muestras_t)
    (indices : list nat) :
  forall acc r,
    simular ev modelo ms indices acc = Ok r ->
    length r = (length acc + length indices)%nat.
Proof.
  induction indices as [|i resto IH]; intros acc r H; simpl in H.
  - injection H as <-. simpl. lia.
  - destruct (valores_actuales _ _ _ _) as [vals|]; [|discriminate].
    cbn [bind] in H.
    destruct (evaluar ev modelo vals) as [x|]; [|discriminate].
    cbn [bind] in H. apply IH in H. rewrite length_app in H. simpl in *. lia.
Qed.

Lemma ejecutar_longitud_aux (ev : evaluador)
    (np_rechaza : llamada_np -> option excepcion)
    (np_draw : llamada_np -> nat -> Q)
    (modelo : Modelo) (n : Z) (s : nat) (r : Resultados) :
  ejecutar ev np_rechaza np_draw modelo n s = Ok r ->
  length (datos r) = Z.to_nat n.
Proof.
  unfold ejecutar.
  destruct (muestrear _ _ _ _ _ _) as [ms|]; [|discriminate]. cbn [bind].
  destruct (simular ev modelo ms (range n) []) as [l|] eqn:Hs; [|discriminate].
  cbn [bind]. intros H. injection H as <-. cbn [datos].
  apply simular_longitud in Hs. unfold range in Hs.
  rewrite length_seq in Hs. exact Hs.
Qed.

(** X8: whatever the model, the host evaluator and the random source, a
    run of the engine that returns gives as many outcomes as the trial
    count, and none when the count is not positive: no trial is dropped
    and none is added. *)
Theorem ejecutar_longitud (ev : evaluador)
    (np_rechaza : llamada_np -> option excepcion)
    (np_draw : llamada_np -> nat -> Q)
    (modelo : Modelo) (n : Z) (s : nat) (r : Resultados) :
  ejecutar ev np_rechaza np_draw modelo n s = Ok r ->
  Z.of_nat (length (datos r)) = Z.max n 0.
Proof.
  intros H. apply ejecutar_longitud_aux in H. lia.
Qed.

Lemma ejecutar_longitud_witness :
  Z.of_nat
    (length (datos (mk_Resultados [VNp 10; VNp 10; VNp 10])))
  = Z.max 3 0.
Proof.
  apply (ejecutar_longitud PyEval.eval np_acepta np_primero
           (mk_Modelo "x*2"
              [("x", mk_Variable "x" "normal" [("media", 5); ("desviacion", 0)])])
           3 0 (mk_Resultados [VNp 10; VNp 10; VNp 10])).
  vm_compute. reflexivity.
Defined.

(** X9: when the simulation handler reports a completed run, the text of
    the count entry was an integer of at least 1, the stripped formula was
    accepted for the registered variables, and the results hold exactly
    that number of outcomes. *)
Theorem simulacion_completada (ev : evaluador)
    (np_rechaza : llamada_np -> option excepcion)
    (np_draw : llamada_np -> nat -> Q)
    (registro : dict Variable_) (formula_texto n_sim_texto : string)
    (s : nat) (r : Resultados) (n : Z) :
  _ejecutar_simulacion ev np_rechaza np_draw registro formula_texto
    n_sim_texto s = Completada r n ->
  (1 <= n)%Z
  /\ int n_sim_texto = Ok n
  /\ registro <> []
  /\ strip formula_texto <> EmptyString
  /\ Modelo_init (strip formula_texto) registro
     = Ok (mk_Modelo (strip formula_texto) registro)
  /\ Z.of_nat (length (datos r)) = n.
Proof.
  unfold _ejecutar_simulacion.
  destruct registro as [|kv resto]; [discriminate|].
  destruct (String.eqb_spec (strip formula_texto) EmptyString) as [|Hf];
    [discriminate|].
  destruct (int n_sim_texto) as [m|] eqn:Hi; cbn [bind]; [|discriminate].
  destruct (Z.leb_spec m 0) as [|Hm]; [discriminate|].
  rewrite Modelo_init_find.
  destruct (Spec.primera_no_declarada _ _); cbn [bind]; [discriminate|].
  destruct (ejecutar _ _ _ _ _ _) as [res|] eqn:He; [|discriminate].
  intros H. injection H as <- <-.
  apply ejecutar_longitud_aux in He.
  repeat split; try assumption; try reflexivity; try discriminate; lia.
Qed.

Lemma simulacion_completada_witness :
  (1 <= 3)%Z
  /\ int " 3 " = Ok 3%Z
  /\ [("x", mk_Variable "x" "normal" [("media", 5); ("desviacion", 0)])] <> []
  /\ strip "x*2 " <> EmptyString
  /\ Modelo_init (strip "x*2 ")
       [("x", mk_Variable "x" "normal" [("media", 5); ("desviacion", 0)])]
     = Ok (mk_Modelo (strip "x*2 ")
             [("x", mk_Variable "x" "normal" [("media", 5); ("desviacion", 0)])])
  /\ Z.of_nat (length (datos (mk_Resultados [VNp 10; VNp 10; VNp 10]))) = 3%Z.
Proof.
  apply (simulacion_completada PyEval.eval np_acepta np_primero
           [("x", mk_Variable "x" "normal" [("media", 5); ("desviacion", 0)])]
           "x*2 " " 3 " 0 (mk_Resultados [VNp 10; VNp 10; VNp 10]) 3).
  vm_compute. reflexivity.
Defined.

Lemma strip_vacio_sin_identificadores (f : string) (registro : dict Variable_)
    (y : string) :
  Spec.primera_no_declarada f registro = Some y -> f <> EmptyString.
Proof.
  intros H ->. discriminate.
Qed.

(** X10: with variables registered and a valid trial count, a formula that
    uses an identifier that is neither a whitelisted function nor a
    registered variable is refused before anything is sampled: the handler
    shows the error that names the first such identifier, whatever the
    random source. *)
Theorem simulacion_con_nombre_no_definido (ev : evaluador)
    (np_rechaza : llamada_np -> option excepcion)
    (np_draw : llamada_np -> nat -> Q)
    (registro : dict Variable_) (formula_texto n_sim_texto : string)
    (s : nat) (n : Z) (y : string) :
  registro <> [] ->
  int n_sim_texto = Ok n ->
  (0 < n)%Z ->
  Spec.primera_no_declarada (strip formula_texto) registro = Some y ->
  _ejecutar_simulacion ev np_rechaza np_draw registro formula_texto
    n_sim_texto s
  = DialogoError ("Error en la simulación:" ++ nueva_linea
                    ++ "Variable '" ++ y ++ "' en la fórmula no está definida").
Proof.
  intros Hr Hi Hn Hy. unfold _ejecutar_simulacion.
  destruct registro as [|kv resto]; [contradiction|].
  destruct (String.eqb_spec (strip formula_texto) EmptyString) as [E|_].
  - now apply strip_vacio_sin_identificadores in Hy.
  - rewrite Hi. cbn [bind].
    destruct (Z.leb_spec n 0); [lia|].
    rewrite Modelo_init_find, Hy. reflexivity.
Qed.

Lemma simulacion_con_nombre_no_definido_witness :
  _ejecutar_simulacion PyEval.eval np_acepta np_primero
    [("x", mk_Variable "x" "normal" [("media", 5); ("desviacion", 0)])]
    "x + y" "100" 0
  = DialogoError ("Error en la simulación:" ++ nueva_linea
                    ++ "Variable '" ++ "y" ++ "' en la fórmula no está definida").
Proof.
  apply (simulacion_con_nombre_no_definido PyEval.eval np_acepta np_primero
           [("x", mk_Variable "x" "normal" [("media", 5); ("desviacion", 0)])]
           "x + y" "100" 0 100 "y").
  - discriminate.
  - vm_compute. reflexivity.
  - lia.
  - vm_compute. reflexivity.
Defined.

(** ** The goal evaluator: range and monotonicity *)

Lemma count_monotona (f g : Q -> bool) (l : list Q) :
  (forall x, f x = true -> g x = true) ->
  (Stats.count f l <= Stats.count g l)%Z.
Proof.
  intros H. induction l as [|x r IH]; [reflexivity|].
  rewrite !count_cons. specialize (H x).
  destruct (f x), (g x); first [lia | discriminate (H eq_refl)].
Qed.

Lemma rango_escalado (K Nz : Z) :
  (0 < Nz)%Z -> (0 <= K <= 2 * Nz)%Z ->
  0 <= inject_Z K * (50 / inject_Z Nz)
  /\ inject_Z K * (50 / inject_Z Nz) <= 100.
Proof.
  intros HN HK.
  assert (HNq : 0 < inject_Z Nz) by (unfold Qlt; simpl; lia).
  assert (HNz : ~ inject_Z Nz == 0) by (intros E; rewrite E in HNq; discriminate).
  setoid_replace (inject_Z K * (50 / inject_Z Nz))
    with (inject_Z K * 50 / inject_Z Nz) by (field; exact HNz).
  split.
  - apply Qle_shift_div_l; [exact HNq|]. rewrite Qmult_0_l.
    change 50 with (inject_Z 50). rewrite <- inject_Z_mult.
    change 0 with (inject_Z 0). rewrite <- Zle_Qle. lia.
  - apply Qle_shift_div_r; [exact HNq|].
    change 50 with (inject_Z 50). change 100 with (inject_Z 100).
    rewrite <- !inject_Z_mult, <- Zle_Qle. lia.
Qed.

Lemma escalado_monotono (K K' Nz : Z) :
  (0 < Nz)%Z -> (K <= K')%Z ->
  inject_Z K * (50 / inject_Z Nz) <= inject_Z K' * (50 / inject_Z Nz).
Proof.
  intros HN HK.
  apply Qmult_le_compat_r; [now rewrite <- Zle_Qle|].
  apply Qle_shift_div_l; [unfold Qlt; simpl; lia|].
  rewrite Qmult_0_l. discriminate.
Qed.

Lemma longitud_positiva (l : list Q) : l <> [] -> (0 < Z.of_nat (length l))%Z.
Proof. destruct l; [contradiction | intros _; simpl length; lia]. Qed.



(** X12: for a non-empty array of outcomes, raising the target never
    lowers the percentile and never raises the probability the goal
    evaluator reports. *)
Theorem meta_monotona (datos : list Q) (a b : Q) :
  datos <> [] ->
  a <= b ->
  exists pa qa ca pb qb cb,
    _actualizar_evaluador (Some datos) (Numero a) = MetaResultado pa qa ca
    /\ _actualizar_evaluador (Some datos) (Numero b) = MetaResultado pb qb cb
    /\ pa <= pb
    /\ qb <= qa.
Proof.
  intros Hne Hab.
  pose proof (percentileofscore_rank datos a Hne) as Ha.
  pose proof (percentileofscore_rank datos b Hne) as Hb.
  pose proof (longitud_positiva datos Hne) as HN.
  assert (HL : (Stats.count (fun x => Stats.Qlt_bool x a) datos
                <= Stats.count (fun x => Stats.Qlt_bool x b) datos)%Z).
  { apply count_monotona. intros x Hx. apply Qlt_bool_iff in Hx.
    apply Qlt_bool_iff. now apply Qlt_le_trans with a. }
  assert (HR : (Stats.count (fun x => Qle_bool x a) datos
                <= Stats.count (fun x => Qle_bool x b) datos)%Z).
  { apply count_monotona. intros x Hx. apply Qle_bool_iff in Hx.
    apply Qle_bool_iff. now apply Qle_trans with a. }
  assert (HLRa : (Stats.count (fun x => Stats.Qlt_bool x a) datos
                  <= Stats.count (fun x => Qle_bool x a) datos)%Z).
  { apply count_monotona. intros x Hx. apply Qlt_bool_iff in Hx.
    apply Qle_bool_iff. now apply Qlt_le_weak. }
  unfold _actualizar_evaluador, Stats.kind_por_defecto. rewrite Ha, Hb.
  set (La := Stats.count (fun x => Stats.Qlt_bool x a) datos) in *.
  set (Ra := Stats.count (fun x => Qle_bool x a) datos) in *.
  set (Lb := Stats.count (fun x => Stats.Qlt_bool x b) datos) in *.
  set (Rb := Stats.count (fun x => Qle_bool x b) datos) in *.
  assert (HK : (La + Ra + (if (La <? Ra)%Z then 1 else 0)
                <= Lb + Rb + (if (Lb <? Rb)%Z then 1 else 0))%Z).
  { destruct (Z.ltb_spec La Ra), (Z.ltb_spec Lb Rb); lia. }
  pose proof (escalado_monotono _ _ _ HN HK) as Hle.
  eexists _, _, _, _, _, _. split; [reflexivity|]. split; [reflexivity|].
  split; [exact Hle|].
  apply Qplus_le_r. now apply Qopp_le_compat.
Qed.

Lemma meta_monotona_witness :
  exists pa qa ca pb qb cb,
    _actualizar_evaluador (Some [1; 2; 3; 4]) (Numero 2) = MetaResultado pa qa ca
    /\ _actualizar_evaluador (Some [1; 2; 3; 4]) (Numero 3)
       = MetaResultado pb qb cb
    /\ pa <= pb
    /\ qb <= qa.
Proof.
  apply (meta_monotona [1; 2; 3; 4] 2 3); discriminate.
Defined.

(** ** Statistics: order of the reported values *)

Lemma convexa_inferior (m lo hi g : Q) :
  m <= lo -> m <= hi -> 0 <= g -> g <= 1 -> m <= lo + (hi - lo) * g.
Proof.
  intros H1 H2 H3 H4.
  assert (Ha : 0 <= (1 - g) * (lo - m))
    by (apply Qmult_le_0_compat; Lqa.lra).
  assert (Hb : 0 <= g * (hi - m)) by (apply Qmult_le_0_compat; Lqa.lra).
  Lqa.lra.
Qed.

Lemma convexa_superior (M lo hi g : Q) :
  lo <= M -> hi <= M -> 0 <= g -> g <= 1 -> lo + (hi - lo) * g <= M.
Proof.
  intros H1 H2 H3 H4.
  assert (Ha : 0 <= (1 - g) * (M - lo))
    by (apply Qmult_le_0_compat; Lqa.lra).
  assert (Hb : 0 <= g * (M - hi)) by (apply Qmult_le_0_compat; Lqa.lra).
  Lqa.lra.
Qed.

Lemma parte_fraccionaria (x : Q) :
  0 <= x - inject_Z (Qfloor x) /\ x - inject_Z (Qfloor x) <= 1.
Proof.
  pose proof (Qfloor_le x) as H1. pose proof (Qlt_floor x) as H2.
  rewrite inject_Z_plus in H2. change (inject_Z 1) with 1 in H2.
  split; Lqa.lra.
Qed.

Lemma clip_en_rango (i : Z) (n : nat) : (0 < n)%nat -> (Np.clip i n < n)%nat.
Proof. unfold Np.clip. lia. Qed.

Lemma en_ordenados (a : list Q) (k : nat) :
  (k < length a)%nat -> In (nth k (Np.sort a) 0) a.
Proof.
  intros Hk. apply (Permutation_in _ (sort_perm a)).
  apply nth_In. now rewrite sort_length.
Qed.

Lemma percentile_entre_extremos (a : list Q) (p : Q) :
  a <> [] -> Np.min a <= Np.percentile a p /\ Np.percentile a p <= Np.max a.
Proof.
  intros Hne.
  destruct (min_es_minimo a Hne) as [_ Hmin].
  destruct (max_es_maximo a Hne) as [_ Hmax].
  assert (Hn : (0 < length a)%nat) by (destruct a; [contradiction | simpl; lia]).
  unfold Np.percentile.
  set (v := inject_Z (Np.size a - 1) * (p / 100)).
  destruct (parte_fraccionaria v) as [Hg0 Hg1].
  pose proof (en_ordenados a _ (clip_en_rango (Qfloor v) _ Hn)) as Hlo.
  pose proof (en_ordenados a _ (clip_en_rango (Qfloor v + 1) _ Hn)) as Hhi.
  split.
  - apply convexa_inferior; auto.
  - apply convexa_superior; auto.
Qed.

Lemma sum_cotas (l : list Q) (m M : Q) :
  (forall x, In x l -> m <= x /\ x <= M) ->
  inject_Z (Z.of_nat (length l)) * m <= Np.sum l
  /\ Np.sum l <= inject_Z (Z.of_nat (length l)) * M.
Proof.
  induction l as [|x r IH]; intros H.
  - change (inject_Z (Z.of_nat (length (@nil Q)))) with 0.
    change (Np.sum []) with 0. split; Lqa.lra.
  - destruct IH as [I1 I2]; [intros y Hy; apply H; now right|].
    destruct (H x (or_introl eq_refl)) as [H1 H2].
    change (Np.sum (x :: r)) with (x + Np.sum r).
    replace (Z.of_nat (length (x :: r))) with (1 + Z.of_nat (length r))%Z
      by (simpl length; lia).
    rewrite inject_Z_plus. change (inject_Z 1) with 1.
    split; Lqa.lra.
Qed.

Lemma mean_entre_extremos (a : list Q) :
  a <> [] -> Np.min a <= Np.mean a /\ Np.mean a <= Np.max a.
Proof.
  intros Hne.
  destruct (min_es_minimo a Hne) as [_ Hmin].
  destruct (max_es_maximo a Hne) as [_ Hmax].
  destruct (sum_cotas a (Np.min a) (Np.max a)) as [H1 H2]; [auto|].
  assert (HN : 0 < inject_Z (Z.of_nat (length a))).
  { pose proof (longitud_positiva a Hne). unfold Qlt. simpl. lia. }
  unfold Np.mean, Np.size. split.
  - apply Qle_shift_div_l; [exact HN|]. Lqa.lra.
  - apply Qle_shift_div_r; [exact HN|]. Lqa.lra.
Qed.

Lemma ordenados_fuerte (a : list Q) : StronglySorted Qle (Np.sort a).
Proof.
  apply Sorted_StronglySorted; [|apply sort_sorted].
  intros x y z. apply Qle_trans.
Qed.

Lemma nth_monotona (s : list Q) :
  StronglySorted Qle s ->
  forall i j, (i <= j)%nat -> (j < length s)%nat -> nth i s 0 <= nth j s 0.
Proof.
  induction 1 as [|x r Hs IH Hx]; intros i j Hij Hj; simpl in Hj; [lia|].
  destruct i as [|i], j as [|j]; simpl; try lia.
  - apply Qle_refl.
  - rewrite Forall_forall in Hx. apply Hx, nth_In. lia.
  - apply IH; lia.
Qed.

Lemma Qfloor_entre (x : Q) (z : Z) :
  inject_Z z <= x -> x < inject_Z (z + 1) -> Qfloor x = z.
Proof.
  intros H1 H2.
  assert (Ha : (z <= Qfloor x)%Z).
  { rewrite <- (Qfloor_Z z). now apply Qfloor_resp_le. }
  assert (Hb : (Qfloor x < z + 1)%Z).
  { rewrite Zlt_Qlt. apply Qle_lt_trans with x; [apply Qfloor_le | exact H2]. }
  lia.
Qed.

(** The position of a percentile between 0 and 100 and the two order
    statistics around it. *)
Lemma percentile_forma (a : list Q) (p : Q) :
  a <> [] -> 0 <= p -> p <= 100 ->
  let N := Z.of_nat (length a) in
  let v := inject_Z (N - 1) * (p / 100) in
  let f := Qfloor v in
  (0 <= f <= N - 1)%Z
  /\ Np.percentile a p
     = nth (Z.to_nat f) (Np.sort a) 0
       + (nth (Z.to_nat (Z.min (f + 1) (N - 1))) (Np.sort a) 0
          - nth (Z.to_nat f) (Np.sort a) 0) * (v - inject_Z f).
Proof.
  intros Hne Hp0 Hp1 N v f.
  pose proof (longitud_positiva a Hne) as HN. fold N in HN.
  assert (Hm : 0 <= inject_Z (N - 1)) by (unfold Qle; simpl; lia).
  assert (Hq0 : 0 <= p / 100)
    by (apply Qle_shift_div_l; [reflexivity | Lqa.lra]).
  assert (Hq1 : p / 100 <= 1)
    by (apply Qle_shift_div_r; [reflexivity | Lqa.lra]).
  assert (Hv0 : 0 <= v) by (unfold v; now apply Qmult_le_0_compat).
  assert (Hv1 : v <= inject_Z (N - 1)).
  { unfold v.
    assert (0 <= inject_Z (N - 1) * (1 - p / 100))
      by (apply Qmult_le_0_compat; Lqa.lra).
    Lqa.lra. }
  assert (Hf0 : (0 <= f)%Z).
  { change 0%Z with (Qfloor 0). now apply Qfloor_resp_le. }
  assert (Hf1 : (f <= N - 1)%Z).
  { rewrite <- (Qfloor_Z (N - 1)). now apply Qfloor_resp_le. }
  split; [lia|].
  unfold Np.percentile, Np.size, Np.clip. fold N. fold v. fold f.
  replace (Z.min (Z.max f 0) (N - 1)) with f by lia.
  replace (Z.min (Z.max (f + 1) 0) (N - 1)) with (Z.min (f + 1) (N - 1)) by lia.
  reflexivity.
Qed.

Lemma percentile_monotona (a : list Q) (p p' : Q) :
  a <> [] -> 0 <= p -> p <= p' -> p' <= 100 ->
  Np.percentile a p <= Np.percentile a p'.
Proof.
  intros Hne Hp0 Hpp Hp1.
  assert (Hp1' : p <= 100) by Lqa.lra.
  assert (Hp0' : 0 <= p') by Lqa.lra.
  destruct (percentile_forma a p Hne Hp0 Hp1') as [Hf E].
  destruct (percentile_forma a p' Hne Hp0' Hp1) as [Hf' E'].
  rewrite E, E'. clear E E'.
  pose proof (longitud_positiva a Hne) as HN.
  set (N := Z.of_nat (length a)) in *.
  set (v := inject_Z (N - 1) * (p / 100)) in *.
  set (v' := inject_Z (N - 1) * (p' / 100)) in *.
  set (f := Qfloor v) in *. set (f' := Qfloor v') in *.
  set (s := Np.sort a).
  assert (Hm : 0 <= inject_Z (N - 1)) by (unfold Qle; simpl; lia).
  assert (Hvv : v <= v').
  { unfold v, v'.
    assert (p / 100 <= p' / 100).
    { apply Qle_shift_div_l; [reflexivity|].
      setoid_replace (p / 100 * 100) with p by field. exact Hpp. }
    assert (0 <= inject_Z (N - 1) * (p' / 100 - p / 100))
      by (apply Qmult_le_0_compat; Lqa.lra).
    Lqa.lra. }
  assert (Hff : (f <= f')%Z) by (now apply Qfloor_resp_le).
  pose proof (ordenados_fuerte a) as Hs. fold s in Hs.
  assert (Hlen : length s = length a) by apply sort_length.
  assert (Hnth : forall i j, (0 <= i <= j)%Z -> (j <= N - 1)%Z ->
            nth (Z.to_nat i) s 0 <= nth (Z.to_nat j) s 0).
  { intros i j Hij Hj. apply (nth_monotona s Hs); unfold N in *; lia. }
  destruct (parte_fraccionaria v) as [Hg0 Hg1]. fold f in Hg0, Hg1.
  destruct (parte_fraccionaria v') as [Hg0' Hg1']. fold f' in Hg0', Hg1'.
  destruct (Z.eq_dec f f') as [Heq|Hneq].
  - rewrite <- Heq.
    assert (Hd : 0 <= nth (Z.to_nat (Z.min (f + 1) (N - 1))) s 0
                      - nth (Z.to_nat f) s 0).
    { assert (nth (Z.to_nat f) s 0
              <= nth (Z.to_nat (Z.min (f + 1) (N - 1))) s 0)
        by (apply Hnth; lia).
      Lqa.lra. }
    assert (Hgg : 0 <= (v' - inject_Z f) - (v - inject_Z f)) by Lqa.lra.
    pose proof (Qmult_le_0_compat _ _ Hd Hgg). Lqa.lra.
  - apply Qle_trans with (nth (Z.to_nat (Z.min (f + 1) (N - 1))) s 0).
    + apply convexa_superior; try assumption.
      * apply Hnth; lia.
      * apply Qle_refl.
    + apply Qle_trans with (nth (Z.to_nat f') s 0).
      * apply Hnth; lia.
      * apply convexa_inferior; try assumption.
        -- apply Qle_refl.
        -- apply Hnth; lia.
Qed.

Lemma mitad_impar (n : nat) : Nat.odd n = true -> n = (2 * (n / 2) + 1)%nat.
Proof.
  intros H. apply Nat.odd_spec in H. destruct H as [m ->].
  replace ((2 * m + 1) / 2)%nat with m; [reflexivity|].
  apply (Nat.div_unique _ 2 m 1); lia.
Qed.

Lemma mitad_par (n : nat) : Nat.odd n = false -> n = (2 * (n / 2))%nat.
Proof.
  intros H.
  assert (He : Nat.even n = true).
  { unfold Nat.odd in H. now destruct (Nat.even n). }
  apply Nat.even_spec in He. destruct He as [m ->].
  replace (2 * m / 2)%nat with m; [reflexivity|].
  apply (Nat.div_unique _ 2 m 0); lia.
Qed.

Lemma mediana_es_percentil_50 (a : list Q) :
  a <> [] -> Np.median a == Np.percentile a 50.
Proof.
  intros Hne.
  rewrite (median_es_mediana a Hne).
  rewrite (percentile_es_interpolacion a 50 Hne) by discriminate.
  pose proof (longitud_positiva a Hne) as HN.
  unfold Spec.mediana, Spec.percentil, Spec.interpolacion.
  rewrite sort_length.
  set (s := Np.sort a). set (n := length a) in *.
  set (h := inject_Z (Z.of_nat n - 1) * 50 / 100).
  destruct (Nat.odd n) eqn:Hodd.
  - pose proof (mitad_impar n Hodd) as Hn.
    assert (Hh : h == inject_Z (Z.of_nat (n / 2))).
    { unfold h. replace (Z.of_nat n - 1)%Z with (2 * Z.of_nat (n / 2))%Z by lia.
      rewrite inject_Z_mult. change (inject_Z 2) with 2. field. }
    rewrite (Qfloor_comp _ _ Hh), Qfloor_Z, Nat2Z.id, Hh. ring.
  - pose proof (mitad_par n Hodd) as Hn.
    assert (Hm : (1 <= n / 2)%nat) by lia.
    assert (Hh : h == inject_Z (Z.of_nat (n / 2)) - (1 # 2)).
    { unfold h. replace (Z.of_nat n - 1)%Z with (2 * Z.of_nat (n / 2) - 1)%Z by lia.
      unfold Zminus. rewrite inject_Z_plus, inject_Z_mult.
      change (inject_Z 2) with 2. change (inject_Z (- (1))) with (-(1)). field. }
    assert (Hf : Qfloor h = (Z.of_nat (n / 2) - 1)%Z).
    { apply Qfloor_entre.
      - rewrite Hh. unfold Zminus. rewrite inject_Z_plus.
        change (inject_Z (- (1))) with (-(1)). Lqa.lra.
      - rewrite Hh. replace (Z.of_nat (n / 2) - 1 + 1)%Z with (Z.of_nat (n / 2)) by lia.
        Lqa.lra. }
    rewrite Hf, Hh.
    replace (Z.to_nat (Z.of_nat (n / 2) - 1)) with (n / 2 - 1)%nat by lia.
    replace (S (n / 2 - 1)) with (n / 2)%nat by lia.
    unfold Zminus. rewrite inject_Z_plus.
    change (inject_Z (- (1))) with (-(1)). field.
Qed.



Lemma sum_nula (l : list Q) : (forall x, In x l -> x == 0) -> Np.sum l == 0.
Proof.
  induction l as [|x r IH]; intros H; [reflexivity|].
  change (Np.sum (x :: r)) with (x + Np.sum r).
  rewrite (H x (or_introl eq_refl)), IH; [reflexivity|].
  intros y Hy. apply H. now right.
Qed.



(** ** The namespace of an evaluation *)

Lemma dict_in_get {V} (k : string) (d : dict V) :
  dict_get k d = None <-> ~ In k (keys d).
Proof.
  rewrite <- dict_in_falso. unfold dict_in.
  destruct (dict_get k d); split; intros H; try reflexivity; discriminate.
Qed.

(** X15: with a values mapping whose keys are distinct, a name is looked
    up in the namespace of [evaluar] first among the values and then among
    the ten functions: a value hides the function of its name, the other
    functions stay bound, and a name that is neither is unbound. *)
Theorem namespace_busqueda (valores : dict valor) (k : string) :
  NoDup (keys valores) ->
  dict_get k (namespace valores)
  = match dict_get k valores with
    | Some v => Some v
    | None => dict_get k funciones_namespace
    end.
Proof.
  intros Hnd. unfold namespace.
  destruct (dict_get k valores) as [v|] eqn:E.
  - now apply dict_get_update.
  - apply dict_get_update_fuera. now apply dict_in_get.
Qed.

Lemma namespace_busqueda_witness :
  dict_get "max" (namespace [("x", VNp 5); ("y", VNp 2)])
  = match dict_get "max" [("x", VNp 5); ("y", VNp 2)] with
    | Some v => Some v
    | None => dict_get "max" funciones_namespace
    end.
Proof.
  apply (namespace_busqueda [("x", VNp 5); ("y", VNp 2)] "max").
  repeat constructor; simpl; intuition discriminate.
Defined.



(** ** Validation of the formula *)

Lemma primera_no_declarada_ninguna (f : string) (vars : dict Variable_) :
  Spec.primera_no_declarada f vars = None
  <-> forall k, In k (Spec.identificadores_restantes f) -> In k (keys vars).
Proof.
  unfold Spec.primera_no_declarada.
  induction (Spec.identificadores_restantes f) as [|n r IH]; simpl.
  - split; [intros _ k [] | reflexivity].
  - destruct (dict_in n vars) eqn:E; simpl.
    + rewrite IH. apply dict_in_keys in E. split.
      * intros H k [<-|Hk]; auto.
      * intros H k Hk. apply H. now right.
    + split; [discriminate|]. intros H.
      assert (Hn : In n (keys vars)) by (apply H; now left).
      apply dict_in_keys in Hn. congruence.
Qed.

(** X17: a formula accepted for some variables is accepted for any other
    variables that declare every identifier of the formula the first ones
    declare: adding variables, removing variables the formula does not
    use, or changing their distributions never invalidates a model. *)
Theorem validacion_estable (f : string) (vars vars' : dict Variable_)
    (m : Modelo) :
  Modelo_init f vars = Ok m ->
  (forall k, In k (Spec.identificadores_restantes f) ->
             In k (keys vars) -> In k (keys vars')) ->
  Modelo_init f vars' = Ok (mk_Modelo f vars').
Proof.
  intros H Hsub. rewrite Modelo_init_find in H |- *.
  destruct (Spec.primera_no_declarada f vars) eqn:E; [discriminate|].
  rewrite primera_no_declarada_ninguna in E.
  assert (E' : Spec.primera_no_declarada f vars' = None).
  { apply primera_no_declarada_ninguna. intros k Hk. auto. }
  now rewrite E'.
Qed.

Lemma validacion_estable_witness :
  Modelo_init "x + max(y, 2)"
    [("y", mk_Variable "y" "poisson" [("lambda", 3)]);
     ("x", mk_Variable "x" "normal" [("media", 5); ("desviacion", 0)])]
  = Ok (mk_Modelo "x + max(y, 2)"
          [("y", mk_Variable "y" "poisson" [("lambda", 3)]);
           ("x", mk_Variable "x" "normal" [("media", 5); ("desviacion", 0)])]).
Proof.
  apply (validacion_estable "x + max(y, 2)"
           [("x", mk_Variable "x" "uniforme" [("minimo", 0); ("maximo", 1)]);
            ("y", mk_Variable "y" "uniforme" [("minimo", 0); ("maximo", 1)]);
            ("z", mk_Variable "z" "uniforme" [("minimo", 0); ("maximo", 1)])]
           _ (mk_Modelo "x + max(y, 2)"
           [("x", mk_Variable "x" "uniforme" [("minimo", 0); ("maximo", 1)]);
            ("y", mk_Variable "y" "uniforme" [("minimo", 0); ("maximo", 1)]);
            ("z", mk_Variable "z" "uniforme" [("minimo", 0); ("maximo", 1)])])).
  - vm_compute. reflexivity.
  - intros k Hk _.
    assert (E : Spec.identificadores_restantes "x + max(y, 2)" = ["x"; "y"])
      by (vm_compute; reflexivity).
    rewrite E in Hk. destruct Hk as [<-|[<-|[]]]; simpl; tauto.
Defined.

Lemma todos_append (p : ascii -> bool) (a b : string) :
  todos p (a ++ b) = todos p a && todos p b.
Proof.
  induction a as [|c a IH]; simpl; [reflexivity|].
  now rewrite IH, andb_assoc.
Qed.

Lemma palabras_forma (s : string) :
  forall actual w,
    todos Re.es_palabra actual = true ->
    In w (Re.palabras actual s) ->
    w <> EmptyString /\ todos Re.es_palabra w = true.
Proof.
  induction s as [|c r IH]; intros actual w Ha Hw; simpl in Hw.
  - destruct actual; [destruct Hw|].
    destruct Hw as [<-|[]]. split; [discriminate | exact Ha].
  - destruct (Re.es_palabra c) eqn:Hc.
    + apply (IH (actual ++ String c EmptyString)%string w); [|exact Hw].
      rewrite todos_append, Ha. simpl. now rewrite Hc.
    + apply in_app_or in Hw. destruct Hw as [Hw|Hw].
      * destruct actual; [destruct Hw|].
        destruct Hw as [<-|[]]. split; [discriminate | exact Ha].
      * now apply (IH EmptyString w).
Qed.

Lemma findall_forma (s w : string) :
  In w (Re.findall_identificadores s) ->
  Re.empieza_identificador w = true /\ todos Re.es_palabra w = true.
Proof.
  unfold Re.findall_identificadores. intros H.
  apply filter_In in H. destruct H as [H1 H2]. split; [exact H2|].
  now apply (palabras_forma s EmptyString w).
Qed.



(** ** Names of a formula: the validation and the evaluator agree *)

Lemma clasificar_nombre (w n : string) :
  PyEval.clasificar w = Some (PyEval.TNombre n) ->
  n = w /\ Re.empieza_identificador w = true.
Proof.
  unfold PyEval.clasificar.
  destruct (Re.empieza_identificador w).
  - destruct (en_lista w PyEval.palabras_clave); [discriminate|].
    intros H. injection H as <-. now split.
  - destruct (PyEval.partir_punto w EmptyString) as [i [f|]].
    + destruct (_ && _); [|discriminate].
      destruct (PyEval.decimales i 0 1) as [[z d]|]; [|discriminate].
      destruct (PyEval.decimales f 0 1) as [[z' d']|]; discriminate.
    + destruct (_ && _); [|discriminate].
      destruct (PyEval.decimales i 0 1) as [[z d]|]; discriminate.
Qed.

Lemma cerrar_token_nombre (actual : string) (l : list PyEval.token) (n : string) :
  PyEval.cerrar_token actual = Some l -> In (PyEval.TNombre n) l ->
  n = actual /\ Re.empieza_identificador actual = true.
Proof.
  unfold PyEval.cerrar_token. destruct actual as [|c r].
  - intros H. injection H as <-. intros [].
  - destruct (PyEval.clasificar (String c r)) as [t|] eqn:E; [|discriminate].
    simpl. intros H. injection H as <-. intros [->|[]].
    now apply clasificar_nombre.
Qed.

Lemma unir_partes (pre post : option (list PyEval.token))
    (t ts : list PyEval.token) :
  PyEval.unir pre t post = Some ts ->
  exists a b, pre = Some a /\ post = Some b /\ ts = a ++ t ++ b.
Proof.
  destruct pre as [a|], post as [b|]; simpl; intros H; try discriminate.
  injection H as <-. eauto.
Qed.

Lemma digito_no_inicial (c : ascii) :
  Re.es_digito c = true -> Re.es_inicial c = false.
Proof.
  unfold Re.es_digito, Re.es_inicial.
  destruct (Nat.leb_spec 48 (nat_of_ascii c)), (Nat.leb_spec (nat_of_ascii c) 57);
    try discriminate.
  intros _.
  destruct (Nat.leb_spec 65 (nat_of_ascii c)); [|
    destruct (Nat.leb_spec 97 (nat_of_ascii c)); [lia|];
    destruct (Nat.eqb_spec (nat_of_ascii c) 95); [lia | reflexivity]].
  lia.
Qed.

Lemma solo_digitos_no_nombre (a : string) :
  PyEval.solo_digitos a = true ->
  a <> EmptyString /\ Re.empieza_identificador a = false.
Proof.
  unfold PyEval.solo_digitos. destruct a as [|c r]; [discriminate|].
  simpl. destruct (Re.es_digito c) eqn:E; [|discriminate].
  intros _. split; [discriminate | now apply digito_no_inicial].
Qed.

Lemma acompasadas_vacias : acompasadas EmptyString EmptyString.
Proof. split; reflexivity. Qed.

Lemma empieza_append (a b : string) :
  a <> EmptyString ->
  Re.empieza_identificador (a ++ b) = Re.empieza_identificador a.
Proof. destruct a; [contradiction | reflexivity]. Qed.

Lemma acompasadas_palabra (actT actP : string) (c : ascii) :
  acompasadas actT actP ->
  acompasadas (actT ++ String c EmptyString) (actP ++ String c EmptyString).
Proof.
  intros [H1 H2]. split.
  - destruct actT as [|x r].
    + intros _. now rewrite (H2 eq_refl).
    + rewrite empieza_append by discriminate. intros H. now rewrite (H1 H).
  - destruct actT; discriminate.
Qed.

Lemma cerrar_en_palabras (actT actP : string) (l : list PyEval.token)
    (n : string) (resto : list string) :
  acompasadas actT actP ->
  PyEval.cerrar_token actT = Some l -> In (PyEval.TNombre n) l ->
  In n (filter Re.empieza_identificador (Re.cerrar actP ++ resto)).
Proof.
  intros [H1 _] Hc Hn.
  destruct (cerrar_token_nombre _ _ _ Hc Hn) as [-> He].
  rewrite <- (H1 He). apply filter_In. split; [|exact He].
  apply in_or_app. left. destruct actT; [discriminate | now left].
Qed.

Lemma en_resto (n : string) (a b : list string) :
  In n (filter Re.empieza_identificador b) ->
  In n (filter Re.empieza_identificador (a ++ b)).
Proof.
  rewrite filter_app. intros H. apply in_or_app. now right.
Qed.

Lemma tokens_nombres (m : nat) :
  forall s actT actP ts n,
    (String.length s <= m)%nat ->
    acompasadas actT actP ->
    PyEval.tokens actT s = Some ts ->
    In (PyEval.TNombre n) ts ->
    In n (filter Re.empieza_identificador (Re.palabras actP s)).
Proof.
  induction m as [|m IH]; intros s actT actP ts n Hlen Hj Ht Hn.
  - destruct s; [|simpl in Hlen; lia]. simpl in Ht |- *.
    rewrite <- (app_nil_r (Re.cerrar actP)).
    now apply (cerrar_en_palabras actT actP ts).
  - destruct s as [|c r].
    + simpl in Ht |- *. rewrite <- (app_nil_r (Re.cerrar actP)).
      now apply (cerrar_en_palabras actT actP ts).
    + simpl in Hlen. cbn [PyEval.tokens] in Ht. cbn [Re.palabras].
      destruct (Re.es_palabra c) eqn:Hw.
      { apply (IH r (actT ++ String c EmptyString)%string
                 (actP ++ String c EmptyString)%string ts n);
          [lia | now apply acompasadas_palabra | exact Ht | exact Hn]. }
      destruct (Ascii.eqb c "." && PyEval.solo_digitos actT) eqn:Hp.
      { apply andb_true_iff in Hp. destruct Hp as [_ Hd].
        apply solo_digitos_no_nombre in Hd. destruct Hd as [Hne He].
        apply en_resto.
        apply (IH r (actT ++ String c EmptyString)%string EmptyString ts n);
          [lia | | exact Ht | exact Hn].
        split.
        - rewrite empieza_append by exact Hne. congruence.
        - destruct actT; [contradiction | discriminate]. }
      assert (Hcierre : forall t post,
                PyEval.unir (PyEval.cerrar_token actT) t post = Some ts ->
                (forall x, In x t -> x <> PyEval.TNombre n) ->
                (forall b, post = Some b -> In (PyEval.TNombre n) b ->
                   In n (filter Re.empieza_identificador
                           (Re.palabras EmptyString r))) ->
                In n (filter Re.empieza_identificador
                        (Re.cerrar actP ++ Re.palabras EmptyString r))).
      { intros t post Hu Hsym Hpost.
        apply unir_partes in Hu. destruct Hu as [a [b [Ha [Hb ->]]]].
        apply in_app_or in Hn. destruct Hn as [Hn|Hn].
        - now apply (cerrar_en_palabras actT actP a).
        - apply in_app_or in Hn. destruct Hn as [Hn|Hn].
          + exfalso. now apply (Hsym _ Hn).
          + apply en_resto. now apply (Hpost b). }
      assert (Hrec : forall b, PyEval.tokens EmptyString r = Some b ->
                In (PyEval.TNombre n) b ->
                In n (filter Re.empieza_identificador
                        (Re.palabras EmptyString r))).
      { intros b Hb Hnb.
        apply (IH r EmptyString EmptyString b n);
          [lia | apply acompasadas_vacias | exact Hb | exact Hnb]. }
      destruct (PyEval.es_blanco c).
      { apply (Hcierre [] _ Ht); [intros x [] | exact Hrec]. }
      destruct (Ascii.eqb c "*").
      { destruct r as [|c2 r'].
        - apply (Hcierre _ _ Ht).
          + intros x [<-|[]]. discriminate.
          + intros b Hb Hnb. injection Hb as <-. destruct Hnb.
        - destruct (Ascii.eqb_spec c2 "*") as [->|_].
          + apply (Hcierre _ _ Ht).
            * intros x [<-|[]]. discriminate.
            * intros b Hb Hnb. cbn [Re.palabras].
              change (Re.es_palabra "*") with false. cbn [Re.cerrar app].
              simpl in Hlen.
              apply (IH r' EmptyString EmptyString b n);
                [lia | apply acompasadas_vacias | exact Hb | exact Hnb].
          + apply (Hcierre _ _ Ht); [|exact Hrec].
            intros x [<-|[]]. discriminate. }
      destruct (PyEval.simbolo_simple c) as [sim|]; [|discriminate].
      apply (Hcierre _ _ Ht); [|exact Hrec].
      intros x [<-|[]]. discriminate.
Qed.

Ltac romper H :=
  repeat match type of H with
         | context [match ?x with _ => _ end] =>
             destruct x eqn:?; try discriminate H
         end.

Ltac usar_parciales :=
  repeat match goal with
         | Hs : nombres_simples ?f, Hx : ?f _ = Some (_, _) |- _ =>
             apply Hs in Hx; destruct Hx as [? ?]
         | Hs : nombres_resto ?f, Hx : ?f _ _ = Some (_, _) |- _ =>
             apply Hs in Hx; destruct Hx as [? ?]
         | Hs : nombres_args ?f, Hx : ?f _ = Some (_, _) |- _ =>
             apply Hs in Hx; destruct Hx as [? ?]
         end.

Ltac saturar :=
  repeat match goal with
         | Hk : (_ || _) = true |- _ => apply orb_true_iff in Hk
         | Hk : _ \/ _ |- _ => destruct Hk
         | Hk : String.eqb _ _ = true |- _ => apply String.eqb_eq in Hk; subst
         | Hk : false = true |- _ => discriminate Hk
         | Hk : menciona _ _ = true |- _ =>
             progress cbn [menciona existsb] in Hk
         | Hf : (forall k, menciona k ?x = true -> _),
           Hk : menciona _ ?x = true |- _ => apply Hf in Hk
         | Hf : (forall k, existsb (menciona k) ?x = true -> _),
           Hk : existsb _ ?x = true |- _ => apply Hf in Hk
         end.

Ltac cerrar_nombres :=
  split;
  [ let k := fresh "k" in
    let Hk := fresh "Hk" in
    intros k Hk; cbn [menciona existsb] in Hk; saturar;
    first [ now left
          | solve [eauto 8 using in_cons, in_eq]
          | right; solve [eauto 8 using in_cons, in_eq] ]
  | let t := fresh "t" in
    let Ht := fresh "Ht" in
    intros t Ht; solve [eauto 8 using in_cons, in_eq] ].

Lemma analisis_nombres (fuel : nat) :
  nombres_simples (PyEval.p_sum fuel)
  /\ nombres_resto (PyEval.p_sum_resto fuel)
  /\ nombres_simples (PyEval.p_term fuel)
  /\ nombres_resto (PyEval.p_term_resto fuel)
  /\ nombres_simples (PyEval.p_factor fuel)
  /\ nombres_simples (PyEval.p_primary fuel)
  /\ nombres_resto (PyEval.p_trailers fuel)
  /\ nombres_args (PyEval.p_args fuel).
Proof.
  induction fuel as [|fuel IH].
  - repeat split; intros; discriminate.
  - destruct IH as [Hsum [Hsumr [Hterm [Htermr [Hfac [Hprim [Htrail Hargs]]]]]]].
    split; [|split; [|split; [|split; [|split; [|split; [|split]]]]]].
    + intros ts e r H. cbn [PyEval.p_sum] in H. romper H.
      usar_parciales. cerrar_nombres.
    + intros a ts e r H. cbn [PyEval.p_sum_resto] in H. romper H;
        try (injection H as <- <-); usar_parciales; cerrar_nombres.
    + intros ts e r H. cbn [PyEval.p_term] in H. romper H.
      usar_parciales. cerrar_nombres.
    + intros a ts e r H. cbn [PyEval.p_term_resto] in H. romper H;
        try (injection H as <- <-); usar_parciales; cerrar_nombres.
    + intros ts e r H. cbn [PyEval.p_factor] in H. romper H;
        try (injection H as <- <-); usar_parciales; cerrar_nombres.
    + intros ts e r H. cbn [PyEval.p_primary] in H. romper H;
        usar_parciales; cerrar_nombres.
    + intros a ts e r H. cbn [PyEval.p_trailers] in H. romper H;
        try (injection H as <- <-); usar_parciales; cerrar_nombres.
    + intros ts l r H. cbn [PyEval.p_args] in H. romper H;
        try (injection H as <- <-); usar_parciales; cerrar_nombres.
Qed.

Lemma parse_nombres (f : string) (e : PyEval.expr) (k : string) :
  PyEval.parse f = Some e -> menciona k e = true ->
  In k (Re.findall_identificadores f).
Proof.
  unfold PyEval.parse, Re.findall_identificadores.
  destruct (PyEval.tokens EmptyString f) as [ts|] eqn:Ht; [|discriminate].
  destruct (PyEval.p_sum _ ts) as [[e' r]|] eqn:Hp; [|discriminate].
  destruct r; [|discriminate]. intros H Hk. injection H as ->.
  destruct (analisis_nombres (8 * (length ts + 1))) as [Hsum _].
  destruct (Hsum _ _ _ Hp) as [Hn _].
  apply (tokens_nombres (String.length f) f EmptyString EmptyString ts k);
    [lia | apply acompasadas_vacias | exact Ht | now apply Hn].
Qed.

Lemma luego_raise {A B} (r : PyEval.omision A) (k : A -> PyEval.omision B)
    (ex : excepcion) :
  PyEval.luego r k = Some (Raise ex) ->
  r = Some (Raise ex) \/ exists a, r = Some (Ok a) /\ k a = Some (Raise ex).
Proof.
  destruct r as [[a|e]|]; simpl; intros H; try discriminate.
  - right. eauto.
  - left. injection H as ->. reflexivity.
Qed.

Lemma op_bin_error (op : PyEval.operador) (a b : valor) (ex : excepcion) :
  PyEval.op_bin op a b = Some (Raise ex) -> tipo ex = "ZeroDivisionError".
Proof.
  unfold PyEval.op_bin, PyEval.ok, PyEval.lanza.
  destruct a, b, op; simpl;
    repeat match goal with
           | |- context [if ?c then _ else _] => destruct c
           end;
    intros H; try discriminate; injection H as <-; reflexivity.
Qed.

Lemma extremo_sin_error (mayor : bool) (resto : list valor) :
  forall mejor q ex, PyEval.extremo mayor mejor q resto <> Some (Raise ex).
Proof.
  induction resto as [|x r IH]; intros mejor q ex; simpl; [discriminate|].
  destruct (como_numero x); [|discriminate].
  destruct (if mayor then _ else _); apply IH.
Qed.

Lemma llamar_error (f : valor) (l : list valor) (ex : excepcion) :
  PyEval.llamar f l = Some (Raise ex) -> tipo ex <> "NameError".
Proof.
  unfold PyEval.llamar, PyEval.extremo_de, PyEval.lanza.
  destruct f; try discriminate.
  - intros H. injection H as <-. discriminate.
  - intros H. injection H as <-. discriminate.
  - destruct (negb _); [discriminate|].
    repeat match goal with
           | |- context [if String.eqb ?a ?b then _ else _] =>
               destruct (String.eqb a b)
           end; try discriminate.
    + destruct l as [|a [|b r]]; try discriminate.
      destruct a; discriminate.
    + destruct l as [|a [|b r]]; try discriminate.
      destruct (como_numero a); [|discriminate].
      intros H. now apply extremo_sin_error in H.
    + destruct l as [|a [|b r]]; try discriminate.
      destruct (como_numero a); [|discriminate].
      intros H. now apply extremo_sin_error in H.
    + destruct l as [|a [|b [|c r]]]; try discriminate.
      intros H. apply op_bin_error in H. rewrite H. discriminate.
Qed.

(** In the fragment, a [NameError] comes from a name of the expression
    that is bound nowhere. *)
Lemma sin_NameError (locals : dict valor) :
  forall e,
    (forall k, menciona k e = true -> dict_get k locals <> None) ->
    forall ex,
      PyEval.eval_expr e globals_vacios locals = Some (Raise ex) ->
      tipo ex <> "NameError".
Proof.
  intros e. induction e using expr_ind_anidada; intros Hb ex Hev;
    cbn [PyEval.eval_expr] in Hev.
  - discriminate.
  - discriminate.
  - unfold PyEval.buscar_nombre in Hev.
    destruct (dict_get n locals) eqn:E; [discriminate|].
    exfalso. apply (Hb n); [simpl; apply String.eqb_refl | exact E].
  - apply luego_raise in Hev. destruct Hev as [Hev|[x [_ Hev]]].
    + apply (IHe1 (fun k Hk => Hb k ltac:(simpl; rewrite Hk; reflexivity)) ex Hev).
    + apply luego_raise in Hev. destruct Hev as [Hev|[y [_ Hev]]].
      * apply (IHe2 (fun k Hk => Hb k
                 ltac:(simpl; rewrite Hk; apply orb_true_r)) ex Hev).
      * apply op_bin_error in Hev. rewrite Hev. discriminate.
  - apply luego_raise in Hev. destruct Hev as [Hev|[x [_ Hev]]].
    + now apply (IHe Hb ex).
    + destruct x; discriminate.
  - apply luego_raise in Hev. destruct Hev as [Hev|[x [_ Hev]]].
    + now apply (IHe Hb ex).
    + destruct x; discriminate.
  - apply luego_raise in Hev. destruct Hev as [Hev|[fv [_ Hev]]].
    + apply (IHe (fun k Hk => Hb k ltac:(simpl; rewrite Hk; reflexivity)) ex Hev).
    + apply luego_raise in Hev. destruct Hev as [Hev|[vs [_ Hev]]].
      * assert (Hl : forall k, existsb (menciona k) l = true ->
                       dict_get k locals <> None).
        { intros k Hk. apply Hb. simpl. rewrite Hk. apply orb_true_r. }
        clear Hb IHe. revert Hl Hev.
        induction l as [|a l IHl]; intros Hl Hev; [discriminate|].
        inversion H as [|? ? Ha Hrest]; subst.
        apply luego_raise in Hev. destruct Hev as [Hev|[x [_ Hev]]].
        -- apply (Ha (fun k Hk => Hl k ltac:(simpl; rewrite Hk; reflexivity))
                     ex Hev).
        -- apply luego_raise in Hev. destruct Hev as [Hev|[xs [_ Hev]]];
             [|discriminate].
           apply (IHl Hrest); [|exact Hev].
           intros k Hk. apply Hl. simpl. rewrite Hk. apply orb_true_r.
      * now apply llamar_error in Hev.
  - apply luego_raise in Hev. destruct Hev as [Hev|[x [_ Hev]]].
    + now apply (IHe Hb ex).
    + unfold PyEval.atributo_de in Hev. destruct x; try discriminate.
      destruct (_ && _); discriminate.
Qed.

Lemma nombres_ligados_aux (f : string) (vars : dict Variable_)
    (m : Modelo) (valores : dict valor) (e : PyEval.expr) :
  Modelo_init f vars = Ok m ->
  NoDup (keys valores) ->
  Spec.suministra valores vars ->
  PyEval.parse f = Some e ->
  forall k, menciona k e = true -> dict_get k (namespace valores) <> None.
Proof.
  intros Hm Hnd Hs Hp k Hk.
  pose proof (parse_nombres f e k Hp Hk) as Hin.
  rewrite Modelo_init_find in Hm.
  destruct (Spec.primera_no_declarada f vars) eqn:E; [discriminate|].
  rewrite primera_no_declarada_ninguna in E.
  unfold namespace.
  destruct (dict_get k valores) as [v|] eqn:Ev.
  - rewrite (dict_get_update k v valores _ Hnd Ev). discriminate.
  - rewrite dict_get_update_fuera by (now apply dict_in_get).
    destruct (en_lista k funciones_permitidas) eqn:Hw.
    + apply en_lista_In in Hw. unfold funciones_permitidas in Hw. simpl in Hw.
      repeat (destruct Hw as [<-|Hw]; [discriminate|]). contradiction.
    + assert (Hd : In k (keys vars)).
      { apply E. unfold Spec.identificadores_restantes.
        apply filter_In. split; [exact Hin | now rewrite Hw]. }
      specialize (Hs k Hd). unfold dict_in in Hs.
      rewrite Ev in Hs. discriminate.
Qed.

Lemma eval_sin_NameError (f : string) (locals : dict valor)
    (e : PyEval.expr) (ex : excepcion) :
  PyEval.parse f = Some e ->
  (forall k, menciona k e = true -> dict_get k locals <> None) ->
  PyEval.eval f globals_vacios locals = Raise ex ->
  tipo ex <> "NameError".
Proof.
  intros Hp Hb Hev. unfold PyEval.eval, PyEval.eval_fragmento in Hev.
  rewrite Hp in Hev.
  destruct (PyEval.eval_expr e globals_vacios locals) as [[y|ex']|] eqn:He.
  - discriminate.
  - injection Hev as <-. now apply (sin_NameError locals e).
  - injection Hev as <-. discriminate.
Qed.



Lemma dict_set_claves {V} (k : string) (v : V) (d : dict V) (x : string) :
  In x (keys (dict_set k v d)) <-> x = k \/ In x (keys d).
Proof.
  induction d as [|[k' v'] r IH]; simpl.
  - intuition.
  - destruct (String.eqb_spec k k') as [->|Hne]; simpl.
    + intuition.
    + rewrite IH. intuition.
Qed.

Lemma dict_set_NoDup {V} (k : string) (v : V) (d : dict V) :
  NoDup (keys d) -> NoDup (keys (dict_set k v d)).
Proof.
  induction d as [|[k' v'] r IH]; simpl; intros H.
  - repeat constructor. intros [].
  - inversion H as [|? ? Hn Hr]; subst.
    destruct (String.eqb_spec k k') as [->|Hne]; simpl.
    + now constructor.
    + constructor; [|now apply IH].
      rewrite dict_set_claves. intros [E|E]; [congruence | contradiction].
Qed.

Lemma prueba_claves (ms : muestras_t) (i : nat) (nombres : list string) :
  forall acc,
    (forall k, In k nombres -> exists l, dict_get k ms = Some (Some l)) ->
    NoDup (keys acc) ->
    NoDup (keys (fold_left (Spec.paso_de_prueba ms i) nombres acc))
    /\ forall k, In k nombres \/ In k (keys acc) ->
         In k (keys (fold_left (Spec.paso_de_prueba ms i) nombres acc)).
Proof.
  induction nombres as [|x r IH]; intros acc Hms Hnd; simpl.
  - split; [exact Hnd|]. intros k [[]|H]. exact H.
  - destruct (Hms x (or_introl eq_refl)) as [l Hl].
    unfold Spec.paso_de_prueba at 2 4. rewrite Hl.
    destruct (IH (dict_set x (nth i l VDictVacio) acc)) as [H1 H2].
    + intros k Hk. apply Hms. now right.
    + now apply dict_set_NoDup.
    + split; [exact H1|].
      intros k [[<-|Hk]|Hk]; apply H2.
      * right. apply dict_set_claves. now left.
      * now left.
      * right. apply dict_set_claves. now right.
Qed.


